(** * genicons: icon generation for the Creative Commons license badges

    A shallow embedding of [scripts/genicons.py] and the properties of its
    path derivation, colour conversion, text layout and enumeration driver.

    Conventions of the embedding:
    - Python [str] is [string]; [int] is [Z]; [float] is an IEEE 754 binary64
      value, [spec_float] with precision 53 and maximal exponent 1024;
    - a [dict] that is iterated is an association list in insertion order;
    - the file system is the finite set of the paths that exist;
    - calls into the libraries the script does not define (pango, cairo, the
      operating system) are parameters of the section that uses them. *)

From Stdlib Require Import ZArith Ascii String List Bool Lia.
From Stdlib Require Import Floats.SpecFloat.
From stdpp Require Import base tactics option list strings pretty gmap sets.

Local Open Scope stdpp_scope.

(** ** Strings as Python uses them *)

Module Str.

(** [s.startswith(p)] *)
Definition startswith (p s : string) : bool := String.prefix p s.

(** [s.endswith("/")] and the like, for a one-character [c]. *)
Fixpoint endswith_char (c : ascii) (s : string) : bool :=
  match s with
  | EmptyString => false
  | String a EmptyString => Ascii.eqb a c
  | String _ rest => endswith_char c rest
  end.

(** [sub in s] for two strings: [sub] occurs in [s] as a substring. *)
Fixpoint contains (sub s : string) : bool :=
  String.prefix sub s ||
  match s with
  | EmptyString => false
  | String _ rest => contains sub rest
  end.

(** [s[i:j]] for [0 <= i <= j]: out-of-range bounds are clipped. *)
Definition slice (i j : nat) (s : string) : string :=
  String.substring i (j - i) s.

(** The characters of a string, as iterating over it yields them. *)
Fixpoint chars (s : string) : list ascii :=
  match s with
  | EmptyString => []
  | String a rest => a :: chars rest
  end.

(** [a == b] on strings. *)
Definition eqb (a b : string) : bool := String.eqb a b.

End Str.

(** ** [os.path.join] (posix)

    [join(a, *p)]: a component that starts with the separator discards what
    came before it; otherwise components are appended, a separator being
    inserted unless the path so far is empty or already ends with one. *)

Module OsPath.

Definition sep : string := "/".

Definition join_step (path b : string) : string :=
  if Str.startswith sep b then b
  else if (String.eqb path "" || Str.endswith_char "/" path)%bool then path +:+ b
  else path +:+ sep +:+ b.

Definition join (a : string) (p : list string) : string :=
  fold_left join_step p a.

End OsPath.

(** ** The tables of the script *)

Definition SUITES : list (string * list (string * list string)) :=
  [ ("l",
     [ ("by", ["b"]);
       ("by-nc", ["bn"; "be"; "by"]);
       ("by-nd", ["bd"]);
       ("by-sa", ["ba"]);
       ("by-nc-nd", ["bnd"; "bed"; "byd"]);
       ("by-nc-sa", ["bna"; "bea"; "bya"]) ]);
    ("p",
     [ ("cc-zero", ["0"]);
       ("public-domain-mark", ["p"]) ]) ].

(** A dimension preset [(width, height, font size, padding)]. *)
Definition dimension : Type := (Z * Z * Z * Z)%type.

Definition dim0 (d : dimension) : Z := let '(a, _, _, _) := d in a.
Definition dim1 (d : dimension) : Z := let '(_, b, _, _) := d in b.
Definition dim2 (d : dimension) : Z := let '(_, _, c, _) := d in c.
Definition dim3 (d : dimension) : Z := let '(_, _, _, e) := d in e.

Definition DIMENSIONS : list dimension :=
  [ (88, 31, 31, 1)%Z; (80, 15, 15, 4)%Z; (76, 22, 22, 1)%Z ].

Definition BACKGROUNDS : list string :=
  [ "transparent"; "000000"; "eeeeee"; "ffffff" ].

Definition STEPS : list string := [ "00"; "11"; "22"; "33"; "66"; "99"; "ff" ].

(** [itertools.product] of three and of four sequences: the rightmost
    sequence advances fastest. *)
Definition product3 {A B C} (la : list A) (lb : list B) (lc : list C)
  : list (A * B * C) :=
  a ← la; b ← lb; c ← lc; [(a, b, c)].

Definition product4 {A B C D} (la : list A) (lb : list B) (lc : list C)
    (ld : list D) : list (A * B * C * D) :=
  a ← la; b ← lb; c ← lc; d ← ld; [(a, b, c, d)].

Definition FOREGROUNDS : list string :=
  (fun '(r, g, b) => r +:+ g +:+ b) <$> product3 STEPS STEPS STEPS.

(** ** Path and file name derivation *)

(** [str(n)] for an [int], as an f-string field prints it. *)
Definition str_of_int (n : Z) : string := pretty n.

Definition icon_filename (dimensions : dimension) (characters : string) : string :=
  let suffix :=
    if Str.contains "y" characters then "-y"
    else if Str.contains "e" characters then "-e"
    else "" in
  str_of_int (dim0 dimensions) +:+ "x" +:+ str_of_int (dim1 dimensions)
    +:+ suffix +:+ ".png".

Definition icon_path (suite descriptor background foreground : string) : string :=
  let foreground_path :=
    OsPath.join (Str.slice 0 2 foreground)
                [Str.slice 2 4 foreground; Str.slice 4 6 foreground] in
  OsPath.join suite [descriptor; background; foreground_path].

(** ** Exceptions and fallible computations *)

(** The argument of [SystemExit], as [sys.exit] interprets it. *)
Inductive exit_code : Type :=
  | CodeNone
  | CodeInt (n : Z)
  | CodeOther (message : string).

(** The exceptions the script can meet.  [SystemExit] and [KeyboardInterrupt]
    derive from [BaseException] only; the others derive from [Exception]. *)
Inductive exn : Type :=
  | SystemExit (code : exit_code)
  | KeyboardInterrupt
  | Exception (message : string)
  | OSError (errno : Z)
  | IndexError
  | ValueError
  | OverflowError
  | ZeroDivisionError.

(** [isinstance(e, Exception)] *)
Definition is_Exception (e : exn) : bool :=
  match e with
  | SystemExit _ | KeyboardInterrupt => false
  | _ => true
  end.

Inductive result (A : Type) : Type :=
  | Ok (a : A)
  | Raise (e : exn).
Arguments Ok {A} a.
Arguments Raise {A} e.

Definition rbind {A B} (r : result A) (k : A -> result B) : result B :=
  match r with
  | Ok a => k a
  | Raise e => Raise e
  end.

Global Instance result_ret : MRet result := fun A a => Ok a.
Global Instance result_bind : MBind result := fun A B k r => rbind r k.
Global Instance result_fmap : FMap result := fun A B f r =>
  rbind r (fun a => Ok (f a)).

(** ** Python floats: IEEE 754 binary64 *)

Module PyFloat.

Definition prec : Z := 53.
Definition emax : Z := 1024.

Definition float : Type := spec_float.

Definition add : float -> float -> float := SFadd prec emax.
Definition sub : float -> float -> float := SFsub prec emax.
Definition mul : float -> float -> float := SFmul prec emax.

(** The nearest float of [m * 2^e] (ties to even). *)
Definition make (m e : Z) : float := binary_normalize prec emax m e false.

Definition zero : float := S754_zero false.
Definition half : float := make 1 (-1).
Definition one : float := make 1 0.

(** [float(n)] for an [int]; an [int] beyond the range of floats raises. *)
Definition of_int (n : Z) : result float :=
  match make n 0 with
  | S754_infinity _ => Raise OverflowError
  | f => Ok f
  end.

(** [x / y] on floats. *)
Definition truediv (x y : float) : result float :=
  match y with
  | S754_zero _ => Raise ZeroDivisionError
  | _ => Ok (SFdiv prec emax x y)
  end.

(** An [int] with its exact value, as an operand of a correctly rounded
    quotient. *)
Definition exact (n : Z) : float :=
  match n with
  | Z0 => S754_zero false
  | Zpos p => S754_finite false p 0
  | Zneg p => S754_finite true p 0
  end.

(** [a / b] on two [int]s: the float nearest to the exact quotient. *)
Definition int_truediv (a b : Z) : result float :=
  if (b =? 0)%Z then Raise ZeroDivisionError
  else match SFdiv prec emax (exact a) (exact b) with
       | S754_infinity _ => Raise OverflowError
       | f => Ok f
       end.

(** [math.floor(x)] and [math.ceil(x)] on a float. *)
Definition floor (x : float) : result Z :=
  match x with
  | S754_nan => Raise ValueError
  | S754_infinity _ => Raise OverflowError
  | S754_zero _ => Ok 0%Z
  | S754_finite s m e =>
      let v := cond_Zopp s (Zpos m) in
      Ok (if (0 <=? e)%Z then v * 2 ^ e else v / 2 ^ (- e))%Z
  end.

Definition ceil (x : float) : result Z :=
  match x with
  | S754_nan => Raise ValueError
  | S754_infinity _ => Raise OverflowError
  | S754_zero _ => Ok 0%Z
  | S754_finite s m e =>
      let v := cond_Zopp s (Zpos m) in
      Ok (if (0 <=? e)%Z then v * 2 ^ e else - ((- v) / 2 ^ (- e)))%Z
  end.

(** Comparison [x <= y]. *)
Definition leb : float -> float -> bool := SFleb.

End PyFloat.

Abbreviation float := PyFloat.float.

(** ** [int(digits, 16)]

    The value of a non-empty run of hexadecimal digits, in either case.
    Python's [int] also accepts a sign, surrounding white space, a [0x]
    prefix and underscores between digits; the colour tables hold none of
    these, and the model raises [ValueError] on every string that is not a
    plain run of hexadecimal digits. *)

Definition hex_digit (c : ascii) : option Z :=
  let n := Z.of_nat (nat_of_ascii c) in
  if ((48 <=? n) && (n <=? 57))%Z then Some (n - 48)%Z
  else if ((97 <=? n) && (n <=? 102))%Z then Some (n - 87)%Z
  else if ((65 <=? n) && (n <=? 70))%Z then Some (n - 55)%Z
  else None.

Fixpoint int16_digits (acc : Z) (s : string) : option Z :=
  match s with
  | EmptyString => Some acc
  | String c rest =>
      match hex_digit c with
      | Some d => int16_digits (16 * acc + d)%Z rest
      | None => None
      end
  end.

Definition int_base16 (s : string) : result Z :=
  match s with
  | EmptyString => Raise ValueError
  | _ => match int16_digits 0 s with
         | Some n => Ok n
         | None => Raise ValueError
         end
  end.

(** ** The drawing context

    A cairo context is modelled by what the script asks of it: the size of
    the surface it was created on and the drawing calls made so far, oldest
    first. *)

Module Cairo.

Inductive call : Type :=
  | set_source_rgba (r g b a : float)
  | set_source_rgb (r g b : float)
  | rectangle (x y w h : Z)
  | fill
  | select_font_face (family : string)
  | set_font_size (size : Z)
  | move_to (x y : Z)
  | show_text (text : string)
  | stroke.

Record context : Type := Context {
  surface_width : Z;
  surface_height : Z;
  calls : list call
}.

(** A method call on the context. *)
Definition invoke (c : call) (ctx : context) : context :=
  {| surface_width := surface_width ctx;
     surface_height := surface_height ctx;
     calls := calls ctx ++ [c] |}.

(** The tuple [text_extents] returns:
    [(x_bearing, y_bearing, width, height, x_advance, y_advance)]. *)
Record extents : Type := Extents {
  x_bearing : float;
  y_bearing : float;
  ink_width : float;
  ink_height : float;
  x_advance : float;
  y_advance : float
}.

(** [e[2]] and [e[3]] on that tuple. *)
Definition item2 (e : extents) : float := ink_width e.
Definition item3 (e : extents) : float := ink_height e.

End Cairo.

(** ** Colour utilities *)

Definition HEX_TO_FLOAT : result float :=
  PyFloat.truediv PyFloat.one (PyFloat.make 255 0).

Definition hex_to_float (digits : string) : result float :=
  h ← HEX_TO_FLOAT;
  n ← int_base16 digits;
  f ← PyFloat.of_int n;
  Ok (PyFloat.mul h f).

Definition set_color (ctx : Cairo.context) (color_string : string)
  : result Cairo.context :=
  if Str.eqb color_string "transparent" then
    Ok (Cairo.invoke (Cairo.set_source_rgba PyFloat.zero PyFloat.zero
                                            PyFloat.zero PyFloat.zero) ctx)
  else
    r ← hex_to_float (Str.slice 0 2 color_string);
    g ← hex_to_float (Str.slice 2 4 color_string);
    b ← hex_to_float (Str.slice 4 6 color_string);
    Ok (Cairo.invoke (Cairo.set_source_rgb r g b) ctx).

(** ** Text layout and rendering *)

Section Rendering.

(** [ctx.text_extents(char)]: the font metrics cairo reports for one
    character in the current state of the context. *)
Variable text_extents : Cairo.context -> ascii -> Cairo.extents.

Definition size_chars (ctx : Cairo.context) (chars : string)
  : list Cairo.extents :=
  text_extents ctx <$> Str.chars chars.

(** [reduce(lambda x, y: y[3] + x, sizes, 0.0)] *)
Definition total_width (sizes : list Cairo.extents) : float :=
  fold_left (fun x y => PyFloat.add (Cairo.item3 y) x) sizes PyFloat.zero.

(** The starting [x] of [show_chars]. *)
Definition start_x (sizes : list Cairo.extents) (total_padding width : Z)
  : result float :=
  w2 ← PyFloat.int_truediv width 2;
  tp ← PyFloat.of_int total_padding;
  s ← PyFloat.truediv (PyFloat.add (total_width sizes) tp) (PyFloat.make 2 0);
  c ← PyFloat.ceil (PyFloat.sub w2 s);
  cf ← PyFloat.of_int c;
  Ok (PyFloat.add PyFloat.half cf).

(** The baseline [y] of [show_chars]. *)
Definition start_y (sizes : list Cairo.extents) (height : Z) : result Z :=
  h2 ← PyFloat.int_truediv height 2;
  ch ← PyFloat.ceil h2;
  s0 ← match sizes with
       | [] => Raise IndexError
       | s0 :: _ => Ok s0
       end;
  q ← PyFloat.truediv (Cairo.item3 s0) (PyFloat.make 2 0);
  fl ← PyFloat.floor q;
  Ok (ch + fl)%Z.

(** The loop of [show_chars] over [zip(chars, sizes)]. *)
Fixpoint draw_chars (ctx : Cairo.context) (x : float) (y padding : Z)
    (pairs : list (ascii * Cairo.extents)) : result Cairo.context :=
  match pairs with
  | [] => Ok ctx
  | (char, size) :: rest =>
      cx ← PyFloat.ceil x;
      let ctx := Cairo.invoke (Cairo.move_to cx y) ctx in
      let ctx := Cairo.invoke (Cairo.show_text (String char "")) ctx in
      pf ← PyFloat.of_int padding;
      draw_chars ctx (PyFloat.add x (PyFloat.add (Cairo.item2 size) pf))
                 y padding rest
  end.

Definition show_chars (ctx : Cairo.context) (chars foreground : string)
    (padding width height : Z) : result Cairo.context :=
  let sizes := size_chars ctx chars in
  let total_padding := (padding * (Z.of_nat (String.length chars) - 1))%Z in
  x ← start_x sizes total_padding width;
  y ← start_y sizes height;
  ctx ← set_color ctx foreground;
  ctx ← draw_chars ctx x y padding (zip (Str.chars chars) sizes);
  Ok (Cairo.invoke Cairo.stroke ctx).

Definition create_context (width height : Z) : Cairo.context :=
  {| Cairo.surface_width := width;
     Cairo.surface_height := height;
     Cairo.calls := [] |}.

Definition set_background (ctx : Cairo.context) (background : string)
    (width height : Z) : result Cairo.context :=
  ctx ← set_color ctx background;
  let ctx := Cairo.invoke (Cairo.rectangle 0 0 width height) ctx in
  Ok (Cairo.invoke Cairo.fill ctx).

Definition configure_font (ctx : Cairo.context) (size : Z) : Cairo.context :=
  let ctx := Cairo.invoke (Cairo.select_font_face "CC Icons") ctx in
  Cairo.invoke (Cairo.set_font_size size) ctx.

Definition genicon (suite characters : string)
    (font_size padding width height : Z) (background foreground : string)
  : result Cairo.context :=
  let ctx := create_context width height in
  ctx ← set_background ctx background width height;
  let ctx := configure_font ctx font_size in
  ctx ← show_chars ctx characters foreground padding width height;
  Ok ctx.

End Rendering.

(** ** The world the driver runs in *)

(** What was written to a stream: a printed line, or the traceback that
    [traceback.print_exc] prints for the exception being handled. *)
Inductive out_item : Type :=
  | Line (text : string)
  | Traceback (e : exn).

(** The calls of the driver that the properties speak about. *)
Inductive event : Type :=
  | EvGenicon (suite characters : string) (font_size padding width height : Z)
              (background foreground : string)
  | EvMakedirs (path : string)
  | EvWritePng (filepath : string) (ctx : Cairo.context).

Record world : Type := World {
  fs : gset string;          (* the paths that exist *)
  stdout : list string;
  stderr : list out_item;
  trace : list event         (* oldest first *)
}.

(** Computations of the driver: they read and change the world and either
    return or raise; the world reached is kept in both cases. *)
Definition M (A : Type) : Type := world -> result A * world.

Global Instance M_ret : MRet M := fun A a w => (Ok a, w).
Global Instance M_bind : MBind M := fun A B k m w =>
  match m w with
  | (Ok a, w') => k a w'
  | (Raise e, w') => (Raise e, w')
  end.

Definition raise {A} (e : exn) : M A := fun w => (Raise e, w).

(** A fallible computation that does not touch the world. *)
Definition lift {A} (r : result A) : M A := fun w => (r, w).

Definition log (ev : event) : M unit := fun w =>
  (Ok tt, {| fs := fs w; stdout := stdout w; stderr := stderr w;
             trace := trace w ++ [ev] |}).

Definition print (text : string) : M unit := fun w =>
  (Ok tt, {| fs := fs w; stdout := stdout w ++ [text]; stderr := stderr w;
             trace := trace w |}).

Definition eprint (item : out_item) (w : world) : world :=
  {| fs := fs w; stdout := stdout w; stderr := stderr w ++ [item];
     trace := trace w |}.

Definition set_fs (s : gset string) (w : world) : world :=
  {| fs := s; stdout := stdout w; stderr := stderr w; trace := trace w |}.

(** [for x in l: body(x)] *)
Fixpoint for_each {A} (l : list A) (body : A -> M unit) : M unit :=
  match l with
  | [] => mret tt
  | a :: rest => _ ← body a; for_each rest body
  end.

(** [try: m  except OSError as e: handler(e.errno)] *)
Definition try_except_OSError (m : M unit) (handler : Z -> M unit) : M unit :=
  fun w =>
    match m w with
    | (Raise (OSError errno), w') => handler errno w'
    | other => other
    end.

Definition EEXIST : Z := 17.

(** The directories a path names: the path itself and each proper prefix
    that ends before a separator. *)
Fixpoint ancestors_from (seen rest : string) : list string :=
  match rest with
  | EmptyString => [seen]
  | String c rest' =>
      let here := if (Ascii.eqb c "/" && negb (String.eqb seen ""))%bool
                  then [seen] else [] in
      here ++ ancestors_from (seen +:+ String c "") rest'
  end.

Definition ancestors (path : string) : list string := ancestors_from "" path.

(** ** The enumeration driver *)

Section Driver.

Variable text_extents : Cairo.context -> ascii -> Cairo.extents.

(** The names of the installed font families, as pango lists them. *)
Variable font_families : list string.

(** [os.path.dirname(__file__)] *)
Variable script_dir : string.

(** [os.path.abspath] and [os.path.realpath]: they depend on the working
    directory and on the symbolic links of the machine. *)
Variable abspath realpath : string -> string.

(** The error, if any, that the operating system reports when asked to
    create the directories of a path, and when cairo writes a PNG file.
    An interrupt by the user arrives as [KeyboardInterrupt] here. *)
Variable makedirs_error : string -> gset string -> option exn.
Variable write_error : string -> Cairo.context -> gset string -> option exn.

(** [os.path.exists(p)] *)
Definition os_path_exists (p : string) : M bool := fun w =>
  (Ok (bool_decide (p ∈ fs w)), w).

(** [os.makedirs(path)]: fails with [EEXIST] when the path exists. *)
Definition makedirs_effect (path : string) : M unit := fun w =>
  match makedirs_error path (fs w) with
  | Some e => (Raise e, w)
  | None =>
      if bool_decide (path ∈ fs w) then (Raise (OSError EEXIST), w)
      else (Ok tt, set_fs (fs w ∪ list_to_set (ancestors path)) w)
  end.

Definition os_makedirs (path : string) : M unit :=
  _ ← log (EvMakedirs path);
  makedirs_effect path.

(** [ctx.get_target().write_to_png(filepath)] *)
Definition write_effect (ctx : Cairo.context) (filepath : string) : M unit :=
  fun w =>
    match write_error filepath ctx (fs w) with
    | Some e => (Raise e, w)
    | None => (Ok tt, set_fs (fs w ∪ {[ filepath ]}) w)
    end.

Definition write_to_png (ctx : Cairo.context) (filepath : string) : M unit :=
  _ ← log (EvWritePng filepath ctx);
  write_effect ctx filepath.

Definition call_genicon (suite characters : string)
    (font_size padding width height : Z) (background foreground : string)
  : M Cairo.context :=
  _ ← log (EvGenicon suite characters font_size padding width height
                     background foreground);
  lift (genicon text_extents suite characters font_size padding width height
                background foreground).

Definition basedir : string :=
  realpath (abspath (OsPath.join script_dir [".."; "www"; "i"])).

Definition icon_dir (suite lic background foreground : string) : string :=
  realpath (abspath
    (OsPath.join basedir [icon_path suite lic background foreground])).

Definition icon_file (suite lic chars : string) (dimensions : dimension)
    (background foreground : string) : string :=
  realpath (abspath
    (OsPath.join (icon_dir suite lic background foreground)
                 [icon_filename dimensions chars])).

(** The body of the innermost loop of [main]. *)
Definition main_body (suite lic : string)
    (item : string * dimension * string * string) : M unit :=
  let '(chars, dimensions, background, foreground) := item in
  if Str.eqb foreground background then mret tt
  else
    let path := icon_dir suite lic background foreground in
    let filepath := icon_file suite lic chars dimensions background foreground in
    present ← os_path_exists filepath;
    if (present : bool) then mret tt
    else
      let width := dim0 dimensions in
      let height := dim1 dimensions in
      let font_size := dim2 dimensions in
      let padding := dim3 dimensions in
      ctx ← call_genicon suite chars font_size padding width height
                         background foreground;
      _ ← try_except_OSError (os_makedirs path)
            (fun errno =>
               if negb (errno =? EEXIST)%Z then raise (OSError errno)
               else mret tt);
      write_to_png ctx filepath.

Definition font_missing : exn :=
  Exception "CC Icons font not installed. See <https://wiki.debian.org/Fonts>.".

Definition main : M unit :=
  if negb (bool_decide ("CC Icons" ∈ font_families)) then raise font_missing
  else
    _ ← print ("# basedir: " +:+ basedir);
    for_each SUITES (fun '(suite, licenses) =>
      for_each licenses (fun '(lic, module_chars) =>
        for_each (product4 module_chars DIMENSIONS BACKGROUNDS FOREGROUNDS)
                 (main_body suite lic))).

(** [sys.exit(code)] reaching the interpreter: the status of the process
    and what is printed on the way. *)
Definition sys_exit (code : exit_code) (w : world) : Z * world :=
  match code with
  | CodeNone => (0%Z, w)
  | CodeInt n => ((n mod 256)%Z, w)
  | CodeOther message => (1%Z, eprint (Line message) w)
  end.

(** The [if __name__ == "__main__"] block: the exit status of the process
    and the world it leaves. *)
Definition script (w : world) : Z * world :=
  match main w with
  | (Ok _, w') => (0%Z, w')
  | (Raise (SystemExit code), w') => sys_exit code w'
  | (Raise KeyboardInterrupt, w') =>
      sys_exit (CodeInt 130)
               (eprint (Line "INFO (130) Halted via KeyboardInterrupt.") w')
  | (Raise e, w') =>
      let w1 := eprint (Line "ERROR (1) Unhandled exception:") w' in
      let w2 := eprint (Traceback e) w1 in
      let w3 := eprint (Line "None") w2 in
      sys_exit (CodeInt 1) w3
  end.

End Driver.

(** * Predicates of the statements *)

(** A string without separator. *)
Definition no_sep (s : string) : bool :=
  forallb (fun c => negb (Ascii.eqb c "/")) (Str.chars s).

(** A path component: not empty and without separator. *)
Definition is_component (s : string) : bool :=
  negb (String.eqb s "") && no_sep s.

(** The suffix rule as the specification words it: ["-y"] if any character
    is ["y"], else ["-e"] if any is ["e"], else empty. *)
Definition suffix_rule (characters : string) : string :=
  if bool_decide ("y"%char ∈ Str.chars characters) then "-y"
  else if bool_decide ("e"%char ∈ Str.chars characters) then "-e"
  else "".

(** A hexadecimal digit, and a colour of six of them. *)
Definition is_hex_char (c : ascii) : bool :=
  match hex_digit c with Some _ => true | None => false end.

Definition is_hex6 (s : string) : bool :=
  (String.length s =? 6)%nat && forallb is_hex_char (Str.chars s).

(** The names the driver enumerates. *)
Definition suite_names : list string := fst <$> SUITES.

Definition descriptor_names : list string :=
  '(_, licenses) ← SUITES; fst <$> licenses.

(** The tuples [icon_path] is applied to: a suite and a descriptor of the
    table, a background of the table, and a foreground of six hexadecimal
    digits. *)
Definition in_domain (suite descriptor background foreground : string) : Prop :=
  suite ∈ suite_names /\ descriptor ∈ descriptor_names
  /\ background ∈ BACKGROUNDS /\ is_hex6 foreground = true.

Global Instance spec_float_eq_dec : EqDecision spec_float.
Proof. solve_decision. Defined.

(** The channel intensity as the script computes it, [HEX_TO_FLOAT * n], and
    as the quotient [n / 255.0]. *)
Definition product255 (n : Z) : result float :=
  h ← HEX_TO_FLOAT; f ← PyFloat.of_int n; Ok (PyFloat.mul h f).

Definition quotient255 (n : Z) : result float :=
  f ← PyFloat.of_int n; PyFloat.truediv f (PyFloat.make 255 0).

(** [set_color] as the specification words it: each channel is the value of
    its two digits divided by 255. *)
Definition hex_divided (digits : string) : result float :=
  n ← int_base16 digits; quotient255 n.

Definition set_color_divided (ctx : Cairo.context) (color_string : string)
  : result Cairo.context :=
  if Str.eqb color_string "transparent" then
    Ok (Cairo.invoke (Cairo.set_source_rgba PyFloat.zero PyFloat.zero
                                            PyFloat.zero PyFloat.zero) ctx)
  else
    r ← hex_divided (Str.slice 0 2 color_string);
    g ← hex_divided (Str.slice 2 4 color_string);
    b ← hex_divided (Str.slice 4 6 color_string);
    Ok (Cairo.invoke (Cairo.set_source_rgb r g b) ctx).

(** The float just below [x]. *)
Definition float_pred (x : float) : float := SFpred PyFloat.prec PyFloat.emax x.

(** What holds of the intensity [r] of a channel of value [n]: it is the
    product the script computes, it lies in [0, 1], and it is the quotient
    [n / 255.0] or the float just below it. *)
Definition channel_spec (n : Z) (r : float) : Prop :=
  product255 n = Ok r
  /\ PyFloat.leb PyFloat.zero r = true /\ PyFloat.leb r PyFloat.one = true
  /\ exists q, quotient255 n = Ok q /\ (r = q \/ r = float_pred q).

Definition channel_check (n : Z) : bool :=
  match product255 n, quotient255 n with
  | Ok r, Ok q =>
      PyFloat.leb PyFloat.zero r && PyFloat.leb r PyFloat.one
      && (bool_decide (r = q) || bool_decide (r = float_pred q))
  | _, _ => false
  end.

(** The width of the run of characters as the specification words it: the
    sum of the ink widths; and the starting [x] that centres a run of that
    width with its padding in a canvas of the given width. *)
Definition run_width (sizes : list Cairo.extents) : float :=
  fold_left (fun x y => PyFloat.add (Cairo.ink_width y) x) sizes PyFloat.zero.

Definition centred_x (sizes : list Cairo.extents) (total_padding width : Z)
  : result float :=
  w2 ← PyFloat.int_truediv width 2;
  tp ← PyFloat.of_int total_padding;
  s ← PyFloat.truediv (PyFloat.add (run_width sizes) tp) (PyFloat.make 2 0);
  c ← PyFloat.ceil (PyFloat.sub w2 s);
  cf ← PyFloat.of_int c;
  Ok (PyFloat.add PyFloat.half cf).

(** A font whose glyphs all have an ink box 10 wide and 20 high. *)
Definition tall_glyphs : Cairo.context -> ascii -> Cairo.extents :=
  fun _ _ =>
    {| Cairo.x_bearing := PyFloat.zero;
       Cairo.y_bearing := PyFloat.zero;
       Cairo.ink_width := PyFloat.make 10 0;
       Cairo.ink_height := PyFloat.make 20 0;
       Cairo.x_advance := PyFloat.make 10 0;
       Cairo.y_advance := PyFloat.zero |}.

(** A computation that does not end in [IndexError]. *)
Definition no_index_error {A} (r : result A) : Prop := r <> Raise IndexError.

(** The character codes of the table. *)
Definition all_character_codes : list string :=
  '(_, licenses) ← SUITES; '(_, module_chars) ← licenses; module_chars.

(** The combinations of the driver, in the order its loops visit them. *)
Definition combination : Type :=
  (string * string * (string * dimension * string * string))%type.

Definition combinations : list combination :=
  '(suite, licenses) ← SUITES;
  '(lic, module_chars) ← licenses;
  item ← product4 module_chars DIMENSIONS BACKGROUNDS FOREGROUNDS;
  [(suite, lic, item)].

(** A combination whose foreground differs from its background. *)
Definition visible (c : combination) : bool :=
  let '(_, _, (_, _, background, foreground)) := c in
  negb (Str.eqb foreground background).

(** The world after an event was logged. *)
Definition logged (ev : event) (w : world) : world :=
  {| fs := fs w; stdout := stdout w; stderr := stderr w;
     trace := trace w ++ [ev] |}.

Definition printed (text : string) (w : world) : world :=
  {| fs := fs w; stdout := stdout w ++ [text]; stderr := stderr w;
     trace := trace w |}.

(** What the handler of the directory creation makes of its outcome. *)
Definition after_makedirs (outcome : result unit * world) (k : M unit)
  : result unit * world :=
  match outcome with
  | (Ok _, w) => k w
  | (Raise (OSError errno), w) =>
      if (errno =? EEXIST)%Z then k w else (Raise (OSError errno), w)
  | (Raise e, w) => (Raise e, w)
  end.

Section DriverPredicates.

Variable text_extents : Cairo.context -> ascii -> Cairo.extents.
Variable script_dir : string.
Variable abspath realpath : string -> string.
Variable makedirs_error : string -> gset string -> option exn.
Variable write_error : string -> Cairo.context -> gset string -> option exn.

(** The iteration of the driver for a combination. *)
Definition step (c : combination) : M unit :=
  let '(suite, lic, item) := c in
  main_body text_extents script_dir abspath realpath makedirs_error
            write_error suite lic item.

(** The output file of a combination. *)
Definition file_of (c : combination) : string :=
  let '(suite, lic, (chars, dimensions, background, foreground)) := c in
  icon_file script_dir abspath realpath suite lic chars dimensions
            background foreground.

(** The rendering of a combination. *)
Definition render_of (c : combination) : result Cairo.context :=
  let '(suite, lic, (chars, dimensions, background, foreground)) := c in
  genicon text_extents suite chars (dim2 dimensions) (dim3 dimensions)
          (dim0 dimensions) (dim1 dimensions) background foreground.

(** An event of a combination whose colours differ: a rendering with two
    different colours, the creation of the directory of such a combination,
    or the writing of its rendering to its file. *)
Definition ev_visible (ev : event) : Prop :=
  match ev with
  | EvGenicon _ _ _ _ _ _ background foreground => foreground <> background
  | EvMakedirs path =>
      exists suite lic background foreground,
        foreground <> background
        /\ path = icon_dir script_dir abspath realpath suite lic
                           background foreground
  | EvWritePng filepath ctx =>
      exists c, visible c = true /\ filepath = file_of c
                /\ render_of c = Ok ctx
  end.

(** Every output file of the enumeration exists. *)
Definition complete (s : gset string) : Prop :=
  forall c, c ∈ combinations -> visible c = true -> file_of c ∈ s.

(** The world [w'] extends [w]: no path was removed, and the trace grew by
    events of combinations whose colours differ. *)
Definition extends (w w' : world) : Prop :=
  fs w ⊆ fs w'
  /\ exists evs, trace w' = trace w ++ evs /\ Forall ev_visible evs.

End DriverPredicates.

(** The lists of character-code variants of the table, one per descriptor. *)
Definition all_variants : list (list string) :=
  '(_, licenses) ← SUITES; snd <$> licenses.

(** Path resolution keeps the entries of a directory apart: two different
    plain names in one directory resolve to different paths. *)
Definition entries_distinct (abspath realpath : string -> string) : Prop :=
  forall directory f1 f2,
    is_component f1 = true -> is_component f2 = true -> f1 <> f2 ->
    realpath (abspath (OsPath.join directory [f1]))
    <> realpath (abspath (OsPath.join directory [f2])).

(** ** A concrete machine

    A machine on which the paths the script forms are already absolute and
    free of links, the script lives in [/srv/scripts], and the font is
    installed; the operating system either reports no error or refuses
    every directory creation with a fixed errno. *)

Definition same_path (p : string) : string := p.

Definition no_makedirs_error : string -> gset string -> option exn :=
  fun _ _ => None.

Definition no_write_error : string -> Cairo.context -> gset string -> option exn :=
  fun _ _ _ => None.

Definition refuse (errno : Z) : string -> gset string -> option exn :=
  fun _ _ => Some (OSError errno).

Definition installed_fonts : list string := ["DejaVu Sans"; "CC Icons"].

Definition srv : string := "/srv/scripts".

Definition empty_world : world :=
  {| fs := ∅; stdout := []; stderr := []; trace := [] |}.

(** The tree that holds the output file of every combination. *)
Definition full_tree : gset string :=
  list_to_set (file_of srv same_path same_path <$> combinations).

Definition full_world : world :=
  {| fs := full_tree; stdout := []; stderr := []; trace := [] |}.

(** The first combination the driver visits. *)
Definition first_combination : combination :=
  ("l", "by", ("b", (88, 31, 31, 1)%Z, "transparent", "000000")).

Definition basedir_line : string :=
  "# basedir: " +:+ basedir srv same_path same_path.

(** ** Further predicates *)

(** A character that [str] of an [int] can print: a decimal digit or the
    minus sign. *)
Definition is_int_char (c : ascii) : bool :=
  let n := nat_of_ascii c in
  ((48 <=? n)%nat && (n <=? 57)%nat) || Ascii.eqb c "-".

(** [c.lower()] on one character, and [s.lower()], for ASCII letters. *)
Definition ascii_lower (c : ascii) : ascii :=
  let n := nat_of_ascii c in
  if ((65 <=? n)%nat && (n <=? 90)%nat)%bool then ascii_of_nat (n + 32) else c.

Fixpoint str_lower (s : string) : string :=
  match s with
  | EmptyString => EmptyString
  | String c rest => String (ascii_lower c) (str_lower rest)
  end.



(** The intensities of two channel values in increasing order are in
    strictly increasing order, checked on every pair of bytes. *)
Definition channel_pair_check (n m : Z) : bool :=
  if (n <? m)%Z then
    match product255 n, product255 m with
    | Ok a, Ok b => SFltb a b
    | _, _ => false
    end
  else true.

(** Two fonts measure a string alike, as far as ink width and ink height
    go. *)
Definition same_ink (te1 te2 : Cairo.context -> ascii -> Cairo.extents)
    (ctx : Cairo.context) (chars : string) : Prop :=
  forall c, c ∈ Str.chars chars ->
    Cairo.ink_width (te1 ctx c) = Cairo.ink_width (te2 ctx c)
    /\ Cairo.ink_height (te1 ctx c) = Cairo.ink_height (te2 ctx c).

(** A font like [tall_glyphs] with other bearings and advances. *)
Definition tall_glyphs_shifted : Cairo.context -> ascii -> Cairo.extents :=
  fun _ _ =>
    {| Cairo.x_bearing := PyFloat.make 3 0;
       Cairo.y_bearing := PyFloat.make (-20) 0;
       Cairo.ink_width := PyFloat.make 10 0;
       Cairo.ink_height := PyFloat.make 20 0;
       Cairo.x_advance := PyFloat.make 14 0;
       Cairo.y_advance := PyFloat.zero |}.

(** The paths of the files a sequence of events wrote, in order. *)
Definition written_paths (evs : list event) : list string :=
  ev ← evs; match ev with EvWritePng p _ => [p] | _ => [] end.

(** The event that records the rendering of a combination. *)
Definition genicon_event (c : combination) : event :=
  let '(suite, _, (chars, d, background, foreground)) := c in
  EvGenicon suite chars (dim2 d) (dim3 d) (dim0 d) (dim1 d)
            background foreground.

Section MoreDriverPredicates.

Variable script_dir : string.
Variable abspath realpath : string -> string.

(** The output directory of a combination. *)
Definition dir_of (c : combination) : string :=
  let '(suite, lic, (_, _, background, foreground)) := c in
  icon_dir script_dir abspath realpath suite lic background foreground.

(** A path of the icon tree: the output file of an enumerated combination
    whose colours differ, or its output directory or a directory above
    it. *)
Definition icon_tree_path (p : string) : Prop :=
  exists c, c ∈ combinations /\ visible c = true
            /\ (p = file_of script_dir abspath realpath c
                \/ p ∈ ancestors (dir_of c)).

Variable text_extents : Cairo.context -> ascii -> Cairo.extents.

(** What an iteration for the combination [c], started in the world [w],
    can come to: it was skipped; or the rendering failed; or the rendering
    succeeded and the directory creation failed; or the writing of the file
    was reached, for a file that did not exist.  It prints nothing, removes
    no path and adds none outside the directory and the file of [c]. *)
Definition step_post (c : combination) (w : world)
    (out : result unit * world) : Prop :=
  let g := genicon_event c in
  let m := EvMakedirs (dir_of c) in
  let f := file_of script_dir abspath realpath c in
  exists evs,
    trace out.2 = trace w ++ evs
    /\ stdout out.2 = stdout w
    /\ stderr out.2 = stderr w
    /\ fs w ⊆ fs out.2
    /\ fs out.2 ⊆ fs w ∪ list_to_set (ancestors (dir_of c)) ∪ {[ f ]}
    /\ ((evs = [] /\ out = (Ok tt, w))
        \/ (evs = [g] /\ visible c = true /\ (f ∉ fs w)
            /\ exists e, render_of text_extents c = Raise e
                         /\ out = (Raise e, logged g w))
        \/ (evs = [g; m] /\ visible c = true /\ (f ∉ fs w)
            /\ (exists ctx, render_of text_extents c = Ok ctx)
            /\ exists e, out.1 = Raise e)
        \/ (exists ctx,
              evs = [g; m; EvWritePng f ctx]
              /\ visible c = true /\ (f ∉ fs w)
              /\ render_of text_extents c = Ok ctx
              /\ (out.1 = Ok tt -> f ∈ fs out.2))).

End MoreDriverPredicates.

(** The files written since [w], when [out] was reached: each was written
    once, none existed in [w], and all exist if [out] is a return. *)
Definition fresh_writes (w : world) (out : result unit * world) : Prop :=
  fs w ⊆ fs out.2
  /\ exists evs,
       trace out.2 = trace w ++ evs
       /\ NoDup (written_paths evs)
       /\ (forall p, p ∈ written_paths evs -> p ∉ fs w)
       /\ (out.1 = Ok tt -> forall p, p ∈ written_paths evs -> p ∈ fs out.2).

(** An operating system that interrupts every directory creation. *)
Definition interrupted : string -> gset string -> option exn :=
  fun _ _ => Some KeyboardInterrupt.

(** * Facts about strings *)

Lemma prefix_char_cons (a c : ascii) (s : string) :
  String.prefix (String a "") (String c s) = bool_decide (a = c).
Proof.
  simpl. destruct (ascii_dec a c) as [->|Hne].
  - destruct s; by rewrite bool_decide_eq_true_2.
  - by rewrite bool_decide_eq_false_2.
Qed.

(** A one-character needle occurs in a string exactly when it is one of its
    characters. *)
Lemma contains_char (a : ascii) (s : string) :
  Str.contains (String a "") s = bool_decide (a ∈ Str.chars s).
Proof.
  induction s as [|c s IH].
  - done.
  - cbn [Str.contains Str.chars]. rewrite prefix_char_cons, IH.
    apply eq_true_iff_eq.
    rewrite orb_true_iff, !bool_decide_eq_true, elem_of_cons. done.
Qed.

Lemma append_nil_l (s : string) : "" +:+ s = s.
Proof. reflexivity. Qed.

Lemma append_cons (x : ascii) (a b : string) :
  String x a +:+ b = String x (a +:+ b).
Proof. reflexivity. Qed.

Ltac str_simpl := rewrite ?append_cons, ?append_nil_l in *; simpl in *.

Lemma append_assoc (a b c : string) : (a +:+ b) +:+ c = a +:+ (b +:+ c).
Proof. induction a as [|x a IH]; str_simpl; [done | by rewrite IH]. Qed.

Lemma append_inv_head (a b c : string) : a +:+ b = a +:+ c -> b = c.
Proof. induction a as [|x a IH]; str_simpl; [done | intros [= ?]; auto]. Qed.

Lemma chars_append (a b : string) :
  Str.chars (a +:+ b) = Str.chars a ++ Str.chars b.
Proof. induction a as [|x a IH]; str_simpl; [done | by rewrite IH]. Qed.

Lemma length_chars (a : string) : length (Str.chars a) = String.length a.
Proof. induction a as [|x a IH]; simpl; [done | by rewrite IH]. Qed.

Lemma no_sep_cons (c : ascii) (s : string) :
  no_sep (String c s) = negb (Ascii.eqb c "/") && no_sep s.
Proof. done. Qed.

Lemma no_sep_append (a b : string) : no_sep (a +:+ b) = no_sep a && no_sep b.
Proof. unfold no_sep. by rewrite chars_append, forallb_app. Qed.

Lemma startswith_sep_false (s : string) :
  no_sep s = true -> Str.startswith OsPath.sep s = false.
Proof.
  destruct s as [|c s]; [done|].
  rewrite no_sep_cons, andb_true_iff, negb_true_iff.
  intros [Hc _]. unfold Str.startswith, OsPath.sep.
  rewrite prefix_char_cons. apply bool_decide_eq_false_2.
  intros <-. by rewrite Ascii.eqb_refl in Hc.
Qed.

Lemma endswith_sep_append (a b : string) :
  b <> "" -> Str.endswith_char "/" (a +:+ b) = Str.endswith_char "/" b.
Proof.
  intros Hb. induction a as [|x a IH]; [done|].
  rewrite append_cons. simpl. destruct (a +:+ b) eqn:E; [|done].
  destruct a; str_simpl; [done | discriminate].
Qed.

Lemma endswith_sep_false (s : string) :
  no_sep s = true -> Str.endswith_char "/" s = false.
Proof.
  induction s as [|c s IH]; [done|].
  rewrite no_sep_cons, andb_true_iff, negb_true_iff. intros [Hc Hs].
  simpl. destruct s; [done | auto].
Qed.

(** Joining to a path that does not end with a separator something that
    does not start with one. *)
Lemma join_step_relative (path b : string) :
  path <> "" -> Str.endswith_char "/" path = false ->
  Str.startswith OsPath.sep b = false ->
  OsPath.join_step path b = path +:+ "/" +:+ b.
Proof.
  intros Hp He Hb. unfold OsPath.join_step. rewrite Hb, He.
  by destruct path.
Qed.

Lemma join_step_component (path b : string) :
  path <> "" -> Str.endswith_char "/" path = false -> no_sep b = true ->
  OsPath.join_step path b = path +:+ "/" +:+ b.
Proof. intros Hp He Hb. by apply join_step_relative, startswith_sep_false. Qed.

(** Two paths that agree, each a separator-free head followed by a
    separator and a rest, have the same head and the same rest. *)
Lemma split_at_sep (a a' r r' : string) :
  no_sep a = true -> no_sep a' = true ->
  a +:+ "/" +:+ r = a' +:+ "/" +:+ r' -> a = a' /\ r = r'.
Proof.
  revert a'. induction a as [|x a IH]; intros [|y a'] Ha Ha'; str_simpl.
  - by intros [= ->].
  - intros [= <- _]. by rewrite no_sep_cons in Ha'.
  - intros [= -> _]. by rewrite no_sep_cons in Ha.
  - intros [= -> E]. rewrite no_sep_cons, andb_true_iff in Ha, Ha'.
    destruct (IH a' (proj2 Ha) (proj2 Ha') E) as [-> ->]. done.
Qed.

Lemma append_nonempty (a b : string) : a <> "" -> a +:+ b <> "".
Proof. destruct a; [done|]. by rewrite append_cons. Qed.

Lemma join_step_path (path b : string) :
  path <> "" -> is_component b = true ->
  OsPath.join_step path b <> "" /\
  (Str.endswith_char "/" path = false ->
   OsPath.join_step path b = path +:+ "/" +:+ b /\
   Str.endswith_char "/" (OsPath.join_step path b) = false).
Proof.
  unfold is_component. rewrite andb_true_iff, negb_true_iff, String.eqb_neq.
  intros Hp [Hb1 Hb2]. split.
  - unfold OsPath.join_step. rewrite (startswith_sep_false _ Hb2).
    destruct (_ || _); by apply append_nonempty.
  - intros He. rewrite join_step_component by done. split; [done|].
    rewrite !endswith_sep_append by done. by apply endswith_sep_false.
Qed.

(** * Path and file name derivation *)

(** C2: [icon_filename] returns ["{width}x{height}{suffix}.png"] with the
    suffix of the rule above, for every dimension tuple and every character
    sequence; ["y"] takes precedence over ["e"], so the sequence b, y, e gets
    the suffix ["-y"]. *)
Theorem icon_filename_suffix_rule :
  (forall (dimensions : dimension) (characters : string),
     icon_filename dimensions characters
     = str_of_int (dim0 dimensions) +:+ "x" +:+ str_of_int (dim1 dimensions)
         +:+ suffix_rule characters +:+ ".png")
  /\ suffix_rule "bye" = "-y"
  /\ icon_filename (88, 31, 31, 1)%Z "bye" = "88x31-y.png".
Proof.
  split; [|split; reflexivity].
  intros dimensions characters. unfold icon_filename, suffix_rule.
  by rewrite !contains_char.
Qed.

Lemma hex_char_not_sep (c : ascii) :
  is_hex_char c = true -> negb (Ascii.eqb c "/") = true.
Proof.
  destruct (Ascii.eqb_spec c "/") as [->|]; [|done].
  by vm_compute.
Qed.

Lemma hex6_shape (f : string) :
  is_hex6 f = true ->
  exists a b c d e g,
    f = String a (String b (String c (String d (String e (String g "")))))
    /\ Forall (fun x => is_hex_char x = true) [a; b; c; d; e; g].
Proof.
  unfold is_hex6. rewrite andb_true_iff, Nat.eqb_eq, forallb_forall.
  intros [Hlen Hall].
  destruct f as [|a [|b [|c [|d [|e [|g [|]]]]]]]; try discriminate Hlen.
  exists a, b, c, d, e, g. split; [done|].
  simpl in Hall. repeat constructor; apply Hall; simpl; tauto.
Qed.

Lemma FOREGROUNDS_hex6 : Forall (fun f => is_hex6 f = true) FOREGROUNDS.
Proof.
  apply Forall_forall. intros f Hf%list_elem_of_In. revert f Hf.
  apply forallb_forall. by vm_compute.
Qed.

(** The directory of a colour: suite, descriptor, background, then the
    foreground in three segments of two digits. *)
Lemma icon_path_shape (suite descriptor background foreground : string) :
  is_component suite = true -> is_component descriptor = true ->
  is_component background = true -> is_hex6 foreground = true ->
  icon_path suite descriptor background foreground
  = suite +:+ "/" +:+ descriptor +:+ "/" +:+ background +:+ "/"
      +:+ Str.slice 0 2 foreground +:+ "/" +:+ Str.slice 2 4 foreground
      +:+ "/" +:+ Str.slice 4 6 foreground.
Proof.
  unfold is_component. rewrite !andb_true_iff, !negb_true_iff, !String.eqb_neq.
  intros [Hs1 Hs2] [Hd1 Hd2] [Hb1 Hb2] (a & b & c & d & e & g & -> & Hhex)%hex6_shape.
  repeat match goal with
         | H : Forall _ (_ :: _) |- _ => inversion H; clear H; subst
         end.
  repeat match goal with
         | H : is_hex_char _ = true |- _ => apply hex_char_not_sep in H
         end.
  unfold icon_path, OsPath.join, Str.slice. cbn [fold_left substring Nat.sub].
  assert (forall x y, negb (Ascii.eqb x "/") = true -> negb (Ascii.eqb y "/") = true ->
                      no_sep (String x (String y "")) = true) as Hpair.
  { intros x y Hx Hy. rewrite !no_sep_cons, Hx, Hy. done. }
  assert (forall x y, negb (Ascii.eqb x "/") = true -> negb (Ascii.eqb y "/") = true ->
                      is_component (String x (String y "")) = true) as Hcomp.
  { intros x y Hx Hy. unfold is_component. by rewrite Hpair. }
  pose proof (Hcomp a b H1 H3) as Hab.
  pose proof (Hcomp c d H2 H4) as Hcd.
  pose proof (Hcomp e g H5 H6) as Heg.
  assert (String a (String b "") <> "") as Hne by done.
  destruct (join_step_path _ _ Hne Hcd) as [Hn1 Hj1].
  destruct Hj1 as [E1 En1]; [by apply endswith_sep_false, Hpair|].
  destruct (join_step_path _ _ Hn1 Heg) as [Hn2 Hj2].
  destruct (Hj2 En1) as [E2 En2].
  assert (is_component descriptor = true) as Hd
    by (unfold is_component; rewrite Hd2; by destruct descriptor).
  assert (is_component background = true) as Hb
    by (unfold is_component; rewrite Hb2; by destruct background).
  destruct (join_step_path _ _ Hs1 Hd) as [Hn3 Hj3].
  destruct Hj3 as [E3 En3]; [by apply endswith_sep_false|].
  destruct (join_step_path _ _ Hn3 Hb) as [Hn4 Hj4].
  destruct (Hj4 En3) as [E4 En4].
  rewrite join_step_relative; [| done | done |].
  - rewrite E4, E3, E2, E1. by rewrite !append_assoc.
  - rewrite E2, E1, !append_cons. unfold Str.startswith, OsPath.sep.
    rewrite prefix_char_cons. apply bool_decide_eq_false_2. intros <-.
    by rewrite Ascii.eqb_refl in H1.
Qed.

Lemma table_names_components :
  Forall (fun s => is_component s = true)
         (suite_names ++ descriptor_names ++ BACKGROUNDS).
Proof.
  apply Forall_forall. intros s Hs%list_elem_of_In. revert s Hs.
  apply forallb_forall. by vm_compute.
Qed.

Lemma in_domain_components (s d b f : string) :
  in_domain s d b f ->
  is_component s = true /\ is_component d = true /\ is_component b = true
  /\ is_hex6 f = true.
Proof.
  intros (Hs & Hd & Hb & Hf).
  pose proof table_names_components as Hall. rewrite Forall_forall in Hall.
  repeat split; [apply Hall .. | done]; rewrite !elem_of_app; auto.
Qed.

(** C4: on the tuples of the enumerated domain whose foreground is a colour
    of six hexadecimal digits, [icon_path] is a function (equal tuples give
    equal paths) that is injective (equal paths come from equal tuples), and
    the path is the suite, the descriptor, the background and the foreground
    split into three segments of two digits. *)
Theorem icon_path_injective (s d b f s' d' b' f' : string) :
  in_domain s d b f -> in_domain s' d' b' f' ->
  (icon_path s d b f = icon_path s' d' b' f' <-> (s, d, b, f) = (s', d', b', f'))
  /\ icon_path s d b f
     = s +:+ "/" +:+ d +:+ "/" +:+ b +:+ "/" +:+ Str.slice 0 2 f
         +:+ "/" +:+ Str.slice 2 4 f +:+ "/" +:+ Str.slice 4 6 f.
Proof.
  intros (Hs & Hd & Hb & Hf)%in_domain_components
         (Hs' & Hd' & Hb' & Hf')%in_domain_components.
  split; [|by apply icon_path_shape].
  split; [|by intros [= -> -> -> ->]].
  rewrite !icon_path_shape by done. intros E.
  unfold is_component in *.
  repeat match goal with
         | H : _ && _ = true |- _ => apply andb_true_iff in H as [_ H]
         end.
  apply split_at_sep in E as [-> E]; [|done..].
  apply split_at_sep in E as [-> E]; [|done..].
  apply split_at_sep in E as [-> E]; [|done..].
  apply hex6_shape in Hf as (x1 & x2 & x3 & x4 & x5 & x6 & -> & _).
  apply hex6_shape in Hf' as (y1 & y2 & y3 & y4 & y5 & y6 & -> & _).
  unfold Str.slice in E. cbn [substring Nat.sub] in E.
  rewrite !append_cons, !append_nil_l in E.
  by injection E as -> -> -> -> -> ->.
Qed.

Lemma icon_path_injective_witness :
  in_domain "l" "by-nc" "000000" "ffffff" /\ in_domain "p" "cc-zero" "ffffff" "0011ff"
  /\ (icon_path "l" "by-nc" "000000" "ffffff" = icon_path "p" "cc-zero" "ffffff" "0011ff"
      <-> ("l", "by-nc", "000000", "ffffff") = ("p", "cc-zero", "ffffff", "0011ff")).
Proof.
  assert (in_domain "l" "by-nc" "000000" "ffffff") as H1.
  { unfold in_domain. repeat split; try (by vm_compute).
    all: apply (bool_decide_unpack _); by vm_compute. }
  assert (in_domain "p" "cc-zero" "ffffff" "0011ff") as H2.
  { unfold in_domain. repeat split; try (by vm_compute).
    all: apply (bool_decide_unpack _); by vm_compute. }
  split; [exact H1|]. split; [exact H2|].
  exact (proj1 (icon_path_injective _ _ _ _ _ _ _ _ H1 H2)).
Defined.

(** * Colour utilities *)

Lemma hex_digit_range (c : ascii) (d : Z) :
  hex_digit c = Some d -> (0 <= d <= 15)%Z.
Proof.
  unfold hex_digit. intros H.
  repeat match type of H with
         | (if ?b then _ else _) = _ => destruct b eqn:?
         end; simplify_eq; lia.
Qed.

(** Two hexadecimal digits denote a byte. *)
Lemma int_base16_byte (x y : ascii) :
  is_hex_char x = true -> is_hex_char y = true ->
  exists n, int_base16 (String x (String y "")) = Ok n /\ (0 <= n <= 255)%Z.
Proof.
  unfold is_hex_char, int_base16. simpl.
  destruct (hex_digit x) as [dx|] eqn:Hx; [|done].
  destruct (hex_digit y) as [dy|] eqn:Hy; [|done].
  intros _ _. eexists. split; [done|].
  apply hex_digit_range in Hx, Hy. lia.
Qed.

Lemma channel_check_sound (n : Z) :
  channel_check n = true -> exists r, channel_spec n r.
Proof.
  unfold channel_check, channel_spec.
  destruct (product255 n) as [r|]; [|done].
  destruct (quotient255 n) as [q|]; [|done].
  rewrite !andb_true_iff, orb_true_iff, !bool_decide_eq_true.
  intros [[H0 H1] Hq]. exists r. eauto 10.
Qed.

Lemma channel_check_all : forallb channel_check (seqZ 0 256) = true.
Proof. by vm_compute. Qed.

Lemma channel_spec_byte (n : Z) :
  (0 <= n <= 255)%Z -> exists r, channel_spec n r.
Proof.
  intros Hn. apply channel_check_sound.
  pose proof channel_check_all as Hall. rewrite forallb_forall in Hall.
  apply Hall, list_elem_of_In, elem_of_seqZ. lia.
Qed.

Lemma hex_to_float_product (digits : string) (n : Z) :
  int_base16 digits = Ok n -> hex_to_float digits = product255 n.
Proof.
  intros H. unfold hex_to_float, product255. rewrite H.
  by destruct HEX_TO_FLOAT.
Qed.

(** C6 as the specification states it fails: the red channel of
    ["210000"] is [33 * (1.0 / 255.0)], the float just below [33 / 255.0]. *)
Lemma set_color_not_divided :
  is_hex6 "210000" = true
  /\ set_color (create_context 88 31) "210000"
     <> set_color_divided (create_context 88 31) "210000".
Proof. split; [reflexivity|]. by vm_compute. Qed.

(** C6 (amended): for the input ["transparent"] [set_color] sets zero-alpha
    black; for every colour of six hexadecimal digits it sets three channel
    intensities, each the value of its two digits multiplied by the float
    [1.0 / 255.0]: a float in [0, 1] that is the quotient of that value by
    [255.0] or the float just below this quotient. *)
Theorem set_color_channels :
  (forall ctx,
     set_color ctx "transparent"
     = Ok (Cairo.invoke (Cairo.set_source_rgba PyFloat.zero PyFloat.zero
                                               PyFloat.zero PyFloat.zero) ctx))
  /\ (forall ctx color_string,
        is_hex6 color_string = true ->
        exists nr ng nb r g b,
          int_base16 (Str.slice 0 2 color_string) = Ok nr
          /\ int_base16 (Str.slice 2 4 color_string) = Ok ng
          /\ int_base16 (Str.slice 4 6 color_string) = Ok nb
          /\ channel_spec nr r /\ channel_spec ng g /\ channel_spec nb b
          /\ set_color ctx color_string
             = Ok (Cairo.invoke (Cairo.set_source_rgb r g b) ctx)).
Proof.
  split; [done|].
  intros ctx f (x1 & x2 & x3 & x4 & x5 & x6 & -> & Hhex)%hex6_shape.
  repeat match goal with
         | H : Forall _ (_ :: _) |- _ => inversion H; clear H; subst
         end.
  destruct (int_base16_byte x1 x2) as (nr & Er & Hr); [done..|].
  destruct (int_base16_byte x3 x4) as (ng & Eg & Hg); [done..|].
  destruct (int_base16_byte x5 x6) as (nb & Eb & Hb); [done..|].
  destruct (channel_spec_byte nr Hr) as [r Sr].
  destruct (channel_spec_byte ng Hg) as [g Sg].
  destruct (channel_spec_byte nb Hb) as [b Sb].
  exists nr, ng, nb, r, g, b.
  unfold Str.slice. cbn [substring Nat.sub].
  do 6 (split; [done|]).
  unfold set_color, Str.slice. cbn [substring Nat.sub].
  assert (Str.eqb (String x1 (String x2 (String x3 (String x4 (String x5
            (String x6 "")))))) "transparent" = false) as ->.
  { unfold Str.eqb. apply String.eqb_neq. intros E. by injection E. }
  rewrite (hex_to_float_product _ _ Er), (hex_to_float_product _ _ Eg),
    (hex_to_float_product _ _ Eb).
  destruct Sr as [-> _], Sg as [-> _], Sb as [-> _]. done.
Qed.

Lemma set_color_channels_witness :
  is_hex6 "21ff00" = true
  /\ exists nr ng nb r g b,
       int_base16 (Str.slice 0 2 "21ff00") = Ok nr
       /\ int_base16 (Str.slice 2 4 "21ff00") = Ok ng
       /\ int_base16 (Str.slice 4 6 "21ff00") = Ok nb
       /\ channel_spec nr r /\ channel_spec ng g /\ channel_spec nb b
       /\ set_color (create_context 88 31) "21ff00"
          = Ok (Cairo.invoke (Cairo.set_source_rgb r g b) (create_context 88 31)).
Proof.
  split; [reflexivity|].
  exact (proj2 set_color_channels (create_context 88 31) "21ff00" eq_refl).
Defined.

(** * Text layout *)

(** What [show_chars] measures for horizontal centring is the sum of the
    ink heights: two fonts with the same heights get the same start. *)
Lemma total_width_heights (s1 s2 : list Cairo.extents) :
  Cairo.ink_height <$> s1 = Cairo.ink_height <$> s2 ->
  total_width s1 = total_width s2.
Proof.
  unfold total_width. generalize PyFloat.zero.
  revert s2. induction s1 as [|a s1 IH]; intros [|b s2] acc; try done.
  rewrite !fmap_cons. intros [= Hh Ht]. cbn [fold_left].
  change (Cairo.item3 a) with (Cairo.ink_height a).
  change (Cairo.item3 b) with (Cairo.ink_height b). rewrite Hh. by apply IH.
Qed.

(** C1: with glyphs 10 wide and 20 high, the run "b" has ink width 10, but
    [show_chars] takes 20 (the ink height) as its width: on a canvas 88 wide
    it starts at 34.5 and draws at 35, where the centred start of a run 10
    wide is 39.5. *)
Theorem show_chars_sums_heights :
  let ctx := configure_font (create_context 88 31) 31 in
  let sizes := size_chars tall_glyphs ctx "b" in
  run_width sizes = PyFloat.make 10 0
  /\ total_width sizes = PyFloat.make 20 0
  /\ centred_x sizes 0 88 = Ok (PyFloat.make 79 (-1))
  /\ start_x sizes 0 88 = Ok (PyFloat.make 69 (-1))
  /\ Cairo.calls <$> show_chars tall_glyphs (create_context 88 31) "b" "ffffff" 1 88 31
     = Ok [ Cairo.set_source_rgb PyFloat.one PyFloat.one PyFloat.one;
            Cairo.move_to 35 26; Cairo.show_text "b"; Cairo.stroke ].
Proof. cbv zeta. repeat split; by vm_compute. Qed.

(** ** Where [IndexError] can come from *)

Create HintDb no_index discriminated.

Lemma no_index_Ok {A} (a : A) : no_index_error (Ok a).
Proof. done. Qed.

Lemma no_index_bind {A B} (r : result A) (k : A -> result B) :
  no_index_error r -> (forall a, no_index_error (k a)) ->
  no_index_error (r ≫= k).
Proof.
  destruct r as [a|e]; intros H Hk; [apply Hk|].
  intros [= ->]. by apply H.
Qed.

Lemma no_index_of_int (n : Z) : no_index_error (PyFloat.of_int n).
Proof. unfold PyFloat.of_int. by destruct (PyFloat.make n 0). Qed.

Lemma no_index_truediv (x y : float) : no_index_error (PyFloat.truediv x y).
Proof. by destruct y. Qed.

Lemma no_index_int_truediv (a b : Z) : no_index_error (PyFloat.int_truediv a b).
Proof.
  unfold PyFloat.int_truediv. destruct (b =? 0)%Z; [done|].
  by destruct (SFdiv _ _ _ _).
Qed.

Lemma no_index_ceil (x : float) : no_index_error (PyFloat.ceil x).
Proof. by destruct x. Qed.

Lemma no_index_floor (x : float) : no_index_error (PyFloat.floor x).
Proof. by destruct x. Qed.

Lemma no_index_int_base16 (s : string) : no_index_error (int_base16 s).
Proof.
  unfold int_base16. destruct s; [done|]. by destruct (int16_digits _ _).
Qed.

#[local] Hint Resolve no_index_Ok no_index_of_int no_index_truediv
  no_index_int_truediv no_index_ceil no_index_floor no_index_int_base16
  : no_index.

Ltac no_index :=
  repeat (first [ solve [auto with no_index]
                | apply no_index_bind; [|intros ?] ]).

Lemma no_index_hex_to_float (digits : string) :
  no_index_error (hex_to_float digits).
Proof. unfold hex_to_float, HEX_TO_FLOAT. no_index. Qed.

Lemma no_index_set_color (ctx : Cairo.context) (color_string : string) :
  no_index_error (set_color ctx color_string).
Proof.
  unfold set_color. destruct (Str.eqb _ _); [done|].
  pose proof no_index_hex_to_float. no_index.
Qed.

Lemma no_index_start_x sizes total_padding width :
  no_index_error (start_x sizes total_padding width).
Proof. unfold start_x. no_index. Qed.

Lemma no_index_draw_chars ctx x y padding pairs :
  no_index_error (draw_chars ctx x y padding pairs).
Proof.
  revert ctx x. induction pairs as [|[char size] rest IH]; intros ctx x.
  - done.
  - cbn [draw_chars]. no_index.
Qed.

Lemma no_index_start_y sizes height :
  sizes <> [] -> no_index_error (start_y sizes height).
Proof. intros H. unfold start_y. destruct sizes; [done|]. no_index. Qed.

(** The only [IndexError] of [show_chars] is that of an empty sequence. *)
Lemma no_index_show_chars te ctx chars foreground padding width height :
  chars <> "" ->
  no_index_error (show_chars te ctx chars foreground padding width height).
Proof.
  intros H. unfold show_chars. cbv zeta.
  assert (size_chars te ctx chars <> []) as Hs by (by destruct chars).
  pose proof (no_index_start_y _ height Hs).
  pose proof no_index_start_x. pose proof no_index_set_color.
  pose proof no_index_draw_chars.
  no_index.
Qed.

Lemma all_character_codes_nonempty :
  Forall (fun chars => chars <> "") all_character_codes.
Proof.
  apply Forall_forall. intros chars Hin ->. revert Hin.
  apply (bool_decide_eq_false_1 _). by vm_compute.
Qed.

Lemma start_y_empty (height : Z) : exists e, start_y [] height = Raise e.
Proof.
  unfold start_y. destruct (PyFloat.int_truediv height 2) as [h2|e]; [|by eexists].
  cbn. destruct (PyFloat.ceil h2) as [ch|e]; by eexists.
Qed.

Lemma show_chars_empty te ctx foreground padding width height :
  exists e, show_chars te ctx "" foreground padding width height = Raise e.
Proof.
  unfold show_chars. cbv zeta. change (size_chars te ctx "") with (@nil Cairo.extents).
  destruct (start_x _ _ _) as [x|e]; [|by eexists].
  destruct (start_y_empty height) as [e ->]. by eexists.
Qed.

(** C10: [show_chars], and hence [genicon], fails on an empty character
    sequence, with the [IndexError] of indexing the first extents for the
    dimension presets; every character code of the [SUITES] table is a
    non-empty string, and on these [show_chars] never ends in that
    [IndexError]. *)
Theorem show_chars_requires_characters :
  (forall te ctx foreground padding width height,
     exists e, show_chars te ctx "" foreground padding width height = Raise e)
  /\ (forall te ctx foreground d,
        d ∈ DIMENSIONS ->
        show_chars te ctx "" foreground (dim3 d) (dim0 d) (dim1 d)
        = Raise IndexError)
  /\ (forall te suite font_size padding width height background foreground,
        exists e, genicon te suite "" font_size padding width height
                          background foreground = Raise e)
  /\ Forall (fun chars => chars <> "") all_character_codes
  /\ (forall te ctx chars foreground padding width height,
        chars ∈ all_character_codes ->
        show_chars te ctx chars foreground padding width height
        <> Raise IndexError).
Proof.
  split; [intros; apply show_chars_empty|].
  split.
  { intros te ctx foreground d Hd.
    unfold DIMENSIONS in Hd. rewrite !elem_of_cons in Hd.
    destruct Hd as [->|[->|[->|Hd]]]; [by vm_compute..|].
    by apply elem_of_nil in Hd. }
  split.
  { intros. unfold genicon.
    destruct (set_background _ _ _ _) as [ctx|e]; [|by eexists].
    cbv beta iota zeta delta [mbind result_bind rbind].
    destruct (show_chars_empty te (configure_font ctx font_size)
                     foreground padding width height) as [e ->].
    by eexists. }
  split; [apply all_character_codes_nonempty|].
  intros te ctx chars foreground padding width height Hin.
  apply no_index_show_chars.
  pose proof all_character_codes_nonempty as Hall.
  rewrite Forall_forall in Hall. by apply Hall.
Qed.

Lemma show_chars_requires_characters_witness :
  "bna" ∈ all_character_codes
  /\ show_chars tall_glyphs (create_context 88 31) "bna" "ffffff" 1 88 31
     <> Raise IndexError
  /\ show_chars tall_glyphs (create_context 88 31) "" "ffffff" 1 88 31
     = Raise IndexError.
Proof.
  assert ("bna" ∈ all_character_codes) as Hin
    by (apply (bool_decide_unpack _); by vm_compute).
  assert ((88, 31, 31, 1)%Z ∈ DIMENSIONS) as Hd
    by (apply (bool_decide_unpack _); by vm_compute).
  split; [exact Hin|]. split.
  - exact (proj2 (proj2 (proj2 (proj2 show_chars_requires_characters)))
             tall_glyphs (create_context 88 31) "bna" "ffffff" 1%Z 88%Z 31%Z Hin).
  - exact (proj1 (proj2 show_chars_requires_characters)
             tall_glyphs (create_context 88 31) "ffffff" _ Hd).
Defined.

(** * The enumeration driver *)

(** ** Loops *)

Lemma for_each_app {A} (l1 l2 : list A) (body : A -> M unit) (w : world) :
  for_each (l1 ++ l2) body w
  = match for_each l1 body w with
    | (Ok _, w') => for_each l2 body w'
    | (Raise e, w') => (Raise e, w')
    end.
Proof.
  revert w. induction l1 as [|a l1 IH]; intros w; [done|].
  cbn [app for_each]. unfold mbind, M_bind.
  destruct (body a w) as [[[]|e] w']; [apply IH | done].
Qed.

Lemma for_each_ext {A} (l : list A) (f g : A -> M unit) :
  (forall a w, f a w = g a w) -> forall w, for_each l f w = for_each l g w.
Proof.
  intros H. induction l as [|a l IH]; intros w; [done|].
  cbn [for_each]. unfold mbind, M_bind. rewrite H.
  destruct (g a w) as [[[]|e] w']; [apply IH | done].
Qed.

(** Nested loops visit the concatenation of the inner sequences. *)
Lemma for_each_bind {A B} (l : list A) (g : A -> list B) (body : B -> M unit)
    (w : world) :
  for_each (l ≫= g) body w = for_each l (fun a => for_each (g a) body) w.
Proof.
  revert w. induction l as [|a l IH]; intros w; [done|].
  change ((a :: l) ≫= g) with (g a ++ (l ≫= g)).
  rewrite for_each_app. cbn [for_each]. unfold mbind at 2, M_bind.
  destruct (for_each (g a) body w) as [[[]|e] w']; [apply IH | done].
Qed.

(** A loop that raises stops there: the rest of the sequence is not
    visited. *)
Lemma for_each_raise {A} (l1 l2 : list A) (a : A) (body : A -> M unit)
    (w w1 w2 : world) (e : exn) :
  for_each l1 body w = (Ok tt, w1) -> body a w1 = (Raise e, w2) ->
  for_each (l1 ++ a :: l2) body w = (Raise e, w2).
Proof.
  intros H1 H2. rewrite for_each_app, H1. cbn [for_each].
  unfold mbind, M_bind. by rewrite H2.
Qed.

(** A property kept by every iteration is kept by the loop. *)
Lemma for_each_preserves {A} (R : world -> world -> Prop) (l : list A)
    (body : A -> M unit) :
  (forall w, R w w) -> (forall w1 w2 w3, R w1 w2 -> R w2 w3 -> R w1 w3) ->
  (forall a w, a ∈ l -> R w (body a w).2) ->
  forall w, R w (for_each l body w).2.
Proof.
  intros Hrefl Htrans. induction l as [|a l IH]; intros Hbody w; [apply Hrefl|].
  cbn [for_each]. unfold mbind, M_bind.
  pose proof (Hbody a w (list_elem_of_here _ _)) as Ha.
  destruct (body a w) as [[[]|e] w']; [|exact Ha].
  apply (Htrans _ w'); [exact Ha|].
  apply IH. intros b w0 Hb. apply Hbody. by apply list_elem_of_further.
Qed.

(** ** One iteration *)

Section DriverProperties.

Variable text_extents : Cairo.context -> ascii -> Cairo.extents.
Variable font_families : list string.
Variable script_dir : string.
Variable abspath realpath : string -> string.
Variable makedirs_error : string -> gset string -> option exn.
Variable write_error : string -> Cairo.context -> gset string -> option exn.

Local Abbreviation body :=
  (main_body text_extents script_dir abspath realpath makedirs_error write_error).
Local Abbreviation run_main :=
  (main text_extents font_families script_dir abspath realpath
        makedirs_error write_error).
Local Abbreviation run_script :=
  (script text_extents font_families script_dir abspath realpath
          makedirs_error write_error).
Local Abbreviation file := (file_of script_dir abspath realpath).
Local Abbreviation dir := (icon_dir script_dir abspath realpath).
Local Abbreviation render := (render_of text_extents).
Local Abbreviation mkdirs := (os_makedirs makedirs_error).
Local Abbreviation write := (write_to_png write_error).
Local Abbreviation step :=
  (step text_extents script_dir abspath realpath makedirs_error write_error).

Lemma step_same_colour suite lic chars d colour w :
  step (suite, lic, (chars, d, colour, colour)) w = (Ok tt, w).
Proof.
  unfold step, main_body, Str.eqb. by rewrite String.eqb_refl.
Qed.

Lemma step_invisible c w : visible c = false -> step c w = (Ok tt, w).
Proof.
  destruct c as [[suite lic] [[[chars d] bg] fg]]. unfold visible.
  rewrite negb_false_iff. unfold Str.eqb. intros ->%String.eqb_eq.
  apply step_same_colour.
Qed.

Lemma step_present c w : file c ∈ fs w -> step c w = (Ok tt, w).
Proof.
  destruct c as [[suite lic] [[[chars d] bg] fg]]. intros Hin.
  unfold step, main_body. destruct (Str.eqb fg bg); [done|].
  unfold mbind, M_bind, os_path_exists.
  unfold file_of in Hin. by rewrite bool_decide_eq_true_2.
Qed.

Lemma step_render c w :
  visible c = true -> file c ∉ fs w ->
  step c w
  = let '(suite, lic, (chars, d, bg, fg)) := c in
    let w1 := logged (EvGenicon suite chars (dim2 d) (dim3 d) (dim0 d) (dim1 d)
                                bg fg) w in
    match render c with
    | Raise e => (Raise e, w1)
    | Ok ctx =>
        after_makedirs (mkdirs (dir suite lic bg fg) w1) (write ctx (file c))
    end.
Proof.
  destruct c as [[suite lic] [[[chars d] bg] fg]]. unfold visible.
  rewrite negb_true_iff. intros Hne Hnin.
  unfold step, main_body. rewrite Hne.
  unfold mbind at 1, M_bind at 1, os_path_exists.
  unfold file_of in Hnin. rewrite bool_decide_eq_false_2 by done.
  unfold call_genicon, mbind, M_bind, log, lift, render_of, logged.
  destruct (genicon _ _ _ _ _ _ _ _ _) as [ctx|e]; [|done].
  unfold try_except_OSError, after_makedirs, file_of.
  destruct (os_makedirs _ _ _) as [[[]|[]] w2]; try done.
  destruct (errno =? EEXIST)%Z; done.
Qed.


(** ** What an iteration does to the world *)

Lemma extends_refl w : extends text_extents script_dir abspath realpath w w.
Proof. split; [done|]. exists []. by rewrite app_nil_r. Qed.

Lemma extends_trans w1 w2 w3 :
  extends text_extents script_dir abspath realpath w1 w2 ->
  extends text_extents script_dir abspath realpath w2 w3 ->
  extends text_extents script_dir abspath realpath w1 w3.
Proof.
  intros [Hf1 (e1 & Ht1 & He1)] [Hf2 (e2 & Ht2 & He2)]. split; [set_solver|].
  exists (e1 ++ e2). rewrite Ht2, Ht1, app_assoc. split; [done|].
  by apply Forall_app.
Qed.

Lemma extends_logged ev w :
  ev_visible text_extents script_dir abspath realpath ev ->
  extends text_extents script_dir abspath realpath w (logged ev w).
Proof. intros H. split; [done|]. exists [ev]. split; [done|]. by constructor. Qed.

Lemma makedirs_extends path w :
  (exists suite lic bg fg, fg <> bg /\ path = dir suite lic bg fg) ->
  extends text_extents script_dir abspath realpath w (mkdirs path w).2.
Proof.
  intros Hpath. unfold os_makedirs, mbind, M_bind, log.
  eapply extends_trans; [apply (extends_logged (EvMakedirs path)); exact Hpath|].
  unfold makedirs_effect. cbn [fs].
  destruct (makedirs_error _ _); [apply extends_refl|].
  destruct (bool_decide _); [apply extends_refl|].
  split; [apply union_subseteq_l|]. exists []. by rewrite app_nil_r.
Qed.

Lemma write_extends c ctx w :
  visible c = true -> render c = Ok ctx ->
  extends text_extents script_dir abspath realpath w (write ctx (file c) w).2.
Proof.
  intros Hv Hr. unfold write_to_png, mbind, M_bind, log.
  eapply extends_trans.
  { apply (extends_logged (EvWritePng (file c) ctx)). by exists c. }
  unfold write_effect. cbn [fs].
  destruct (write_error _ _ _); [apply extends_refl|].
  split; [apply union_subseteq_l|]. exists []. by rewrite app_nil_r.
Qed.

(** An iteration removes no path and logs only events of combinations whose
    colours differ. *)
Lemma step_extends c w :
  extends text_extents script_dir abspath realpath w (step c w).2.
Proof.
  destruct (visible c) eqn:Hv; [|rewrite step_invisible by done; apply extends_refl].
  destruct (decide (file c ∈ fs w)) as [Hin|Hnin];
    [rewrite step_present by done; apply extends_refl|].
  rewrite step_render by done.
  destruct c as [[suite lic] [[[chars d] bg] fg]].
  assert (fg <> bg) as Hne.
  { unfold visible, Str.eqb in Hv. rewrite negb_true_iff in Hv.
    by apply String.eqb_neq. }
  cbv zeta.
  set (w1 := logged _ w).
  assert (extends text_extents script_dir abspath realpath w w1) as H1
    by (by apply extends_logged).
  destruct (render _) as [ctx|e] eqn:Hr; [|exact H1].
  pose proof (makedirs_extends (dir suite lic bg fg) w1) as H2.
  destruct (mkdirs _ w1) as [[[]|e] w2]; cbn [snd] in H2; cbn [after_makedirs].
  - eapply extends_trans; [exact H1|]. eapply extends_trans; [apply H2; eauto 10|].
    by apply write_extends.
  - assert (extends text_extents script_dir abspath realpath w w2) as H3
      by (eapply extends_trans; [exact H1 | apply H2; eauto 10]).
    destruct e; try exact H3.
    destruct (errno =? EEXIST)%Z; [|exact H3].
    eapply extends_trans; [exact H3|]. by apply write_extends.
Qed.

(** ** The whole run *)

Lemma for_each_singleton {A} (a : A) (f : A -> M unit) (w : world) :
  for_each [a] f w = f a w.
Proof.
  cbn [for_each]. unfold mbind, M_bind, mret, M_ret.
  by destruct (f a w) as [[[]|e] w'].
Qed.

(** The three nested loops of [main] visit the combinations in order. *)
Lemma loops_combinations (w : world) :
  for_each SUITES (fun '(suite, licenses) =>
    for_each licenses (fun '(lic, module_chars) =>
      for_each (product4 module_chars DIMENSIONS BACKGROUNDS FOREGROUNDS)
               (body suite lic))) w
  = for_each combinations step w.
Proof.
  unfold combinations. rewrite for_each_bind.
  apply for_each_ext. intros [suite licenses] w1.
  rewrite for_each_bind.
  apply for_each_ext. intros [lic module_chars] w2.
  rewrite for_each_bind.
  apply for_each_ext. intros item w3.
  by rewrite for_each_singleton.
Qed.

Lemma main_font_missing (w : world) :
  "CC Icons" ∉ font_families -> run_main w = (Raise font_missing, w).
Proof. intros H. unfold main. by rewrite bool_decide_eq_false_2. Qed.

Lemma main_combinations (w : world) :
  "CC Icons" ∈ font_families ->
  run_main w
  = for_each combinations step
      (printed ("# basedir: " +:+ basedir script_dir abspath realpath) w).
Proof.
  intros H. unfold main. rewrite bool_decide_eq_true_2 by done.
  cbn [negb]. unfold mbind at 1, M_bind at 1, print.
  apply loops_combinations.
Qed.

(** A run removes no path and logs only events of combinations whose
    colours differ. *)
Lemma main_extends (w : world) :
  extends text_extents script_dir abspath realpath w (run_main w).2.
Proof.
  destruct (decide ("CC Icons" ∈ font_families)) as [Hin|Hnin];
    [|rewrite main_font_missing by done; apply extends_refl].
  rewrite main_combinations by done.
  eapply extends_trans;
    [|apply (for_each_preserves
               (extends text_extents script_dir abspath realpath))].
  - split; [done|]. exists []. by rewrite app_nil_r.
  - apply extends_refl.
  - apply extends_trans.
  - intros c w' _. apply step_extends.
Qed.

(** C3: for a combination whose foreground equals its background the driver
    does nothing: its iteration returns at once and leaves the world as it
    was; and whatever a run logs (a rendering, a directory creation, the
    writing of a file) is logged for a combination whose foreground differs
    from its background. *)
Theorem same_colour_never_rendered :
  (forall suite lic chars d colour w,
     body suite lic (chars, d, colour, colour) w = (Ok tt, w))
  /\ (forall w,
        exists evs,
          trace (run_main w).2 = trace w ++ evs
          /\ Forall (ev_visible text_extents script_dir abspath realpath) evs).
Proof.
  split.
  - intros. apply (step_same_colour suite lic chars d colour w).
  - intros w. apply main_extends.
Qed.

(** ** Existing files *)

Lemma write_ok ctx p w w' : write ctx p w = (Ok tt, w') -> p ∈ fs w'.
Proof.
  unfold write_to_png, mbind, M_bind, log, write_effect. cbn [fs].
  destruct (write_error _ _ _); [done|].
  intros [= <-]. cbn. apply elem_of_union_r. by apply elem_of_singleton.
Qed.

(** An iteration that returns leaves the file of its combination in place. *)
Lemma step_ok_file c w w' :
  visible c = true -> step c w = (Ok tt, w') -> file c ∈ fs w'.
Proof.
  intros Hv. destruct (decide (file c ∈ fs w)) as [Hin|Hnin].
  { rewrite step_present by done. by intros [= <-]. }
  rewrite step_render by done.
  destruct c as [[suite lic] [[[chars d] bg] fg]]. cbv zeta.
  destruct (render _) as [ctx|e]; [|done].
  destruct (mkdirs _ _) as [[[]|e] w2]; cbn [after_makedirs].
  - apply write_ok.
  - destruct e; try done. destruct (errno =? EEXIST)%Z; [apply write_ok | done].
Qed.

(** A loop over combinations whose files all exist changes nothing. *)
Lemma for_each_present (l : list combination) (w : world) :
  (forall c, c ∈ l -> visible c = true -> file c ∈ fs w) ->
  for_each l step w = (Ok tt, w).
Proof.
  induction l as [|c l IH]; intros H; [done|].
  cbn [for_each]. unfold mbind, M_bind.
  assert (step c w = (Ok tt, w)) as ->.
  { destruct (visible c) eqn:Hv; [|by apply step_invisible].
    apply step_present, H; [apply list_elem_of_here | done]. }
  apply IH. intros c' Hc'. apply H. by apply list_elem_of_further.
Qed.

(** A loop that returns leaves the files of all its combinations in place. *)
Lemma for_each_ok_files (l : list combination) (w w' : world) :
  for_each l step w = (Ok tt, w') ->
  forall c, c ∈ l -> visible c = true -> file c ∈ fs w'.
Proof.
  revert w. induction l as [|c l IH]; intros w Hrun c' Hc' Hv.
  { by apply elem_of_nil in Hc'. }
  cbn [for_each] in Hrun. unfold mbind, M_bind in Hrun.
  destruct (step c w) as [[[]|e] w1] eqn:Hstep; [|done].
  apply elem_of_cons in Hc' as [->|Hc']; [|by eapply IH].
  pose proof (step_ok_file _ _ _ Hv Hstep) as Hfile.
  assert (fs w1 ⊆ fs w') as Hsub.
  { pose proof (for_each_preserves
                  (extends text_extents script_dir abspath realpath) l step
                  extends_refl extends_trans
                  (fun a w0 _ => step_extends a w0) w1) as [Hsub _].
    by rewrite Hrun in Hsub. }
  by apply Hsub.
Qed.

(** What an iteration writes is the file of its combination, and it writes
    it only when that file did not exist. *)
Lemma step_writes c w :
  exists evs,
    trace (step c w).2 = trace w ++ evs
    /\ Forall (fun ev => match ev with
                         | EvWritePng p _ => p = file c /\ p ∉ fs w
                         | _ => True
                         end) evs.
Proof.
  assert (exists evs : list event, trace w = trace w ++ evs /\
            Forall (fun ev => match ev with
                              | EvWritePng p _ => p = file c /\ p ∉ fs w
                              | _ => True
                              end) evs) as Hnone
    by (exists []; by rewrite app_nil_r).
  destruct (visible c) eqn:Hv; [|by rewrite step_invisible].
  destruct (decide (file c ∈ fs w)) as [Hin|Hnin]; [by rewrite step_present|].
  rewrite step_render by done.
  destruct c as [[suite lic] [[[chars d] bg] fg]]. cbv zeta.
  set (g := EvGenicon _ _ _ _ _ _ _ _).
  set (f := file_of _ _ _ _) in *.
  destruct (render _) as [ctx|e].
  2:{ exists [g]. split; [done|]. by repeat constructor. }
  unfold os_makedirs, mbind, M_bind, log, makedirs_effect. cbn [fs trace logged].
  set (m := EvMakedirs _).
  assert (forall s, exists evs,
            trace (write ctx f
                     {| fs := s; stdout := stdout w; stderr := stderr w;
                        trace := (trace w ++ [g]) ++ [m] |}).2
            = trace w ++ evs
            /\ Forall (fun ev => match ev with
                                 | EvWritePng p _ => p = f /\ p ∉ fs w
                                 | _ => True
                                 end) evs) as Hwrite.
  { intros s. exists [g; m; EvWritePng f ctx]. split.
    - unfold write_to_png, mbind, M_bind, log, write_effect. cbn [fs trace].
      destruct (write_error _ _ _); cbn; by rewrite <- !app_assoc.
    - by repeat constructor. }
  assert (exists evs, (trace w ++ [g]) ++ [m] = trace w ++ evs
            /\ Forall (fun ev => match ev with
                                 | EvWritePng p _ => p = f /\ p ∉ fs w
                                 | _ => True
                                 end) evs) as Hstop.
  { exists [g; m]. split; [by rewrite <- app_assoc | by repeat constructor]. }
  destruct (makedirs_error _ _) as [e|]; cbn [after_makedirs].
  - destruct e; try exact Hstop.
    destruct (errno =? EEXIST)%Z; [apply Hwrite | exact Hstop].
  - destruct (bool_decide _); cbn [after_makedirs].
    + cbn. apply Hwrite.
    + apply Hwrite.
Qed.

Lemma main_complete (w : world) :
  "CC Icons" ∈ font_families ->
  complete script_dir abspath realpath (fs w) ->
  run_main w
  = (Ok tt, printed ("# basedir: " +:+ basedir script_dir abspath realpath) w).
Proof.
  intros Hfont Hall. rewrite main_combinations by done.
  apply for_each_present. intros c Hc Hv. by apply Hall.
Qed.

Lemma main_ok_complete (w w1 : world) :
  run_main w = (Ok tt, w1) ->
  "CC Icons" ∈ font_families /\ complete script_dir abspath realpath (fs w1).
Proof.
  intros Hrun.
  destruct (decide ("CC Icons" ∈ font_families)) as [Hin|Hnin];
    [|by rewrite main_font_missing in Hrun].
  split; [done|]. rewrite main_combinations in Hrun by done.
  intros c Hc Hv. by eapply for_each_ok_files.
Qed.

(** C5: generation is idempotent and append-only.  An iteration whose output
    file exists returns at once and leaves the world as it was; an iteration
    writes no file but its own, and only when it did not exist; a run removes
    no path; a run over a tree that holds every output file only prints its
    first line and returns; and after a run that returned, a second run does
    just that. *)
Theorem generation_idempotent :
  (forall c w, file c ∈ fs w -> step c w = (Ok tt, w))
  /\ (forall c w,
        exists evs,
          trace (step c w).2 = trace w ++ evs
          /\ Forall (fun ev => match ev with
                               | EvWritePng p _ => p = file c /\ p ∉ fs w
                               | _ => True
                               end) evs)
  /\ (forall w, fs w ⊆ fs (run_main w).2)
  /\ (forall w,
        "CC Icons" ∈ font_families ->
        complete script_dir abspath realpath (fs w) ->
        run_main w
        = (Ok tt, printed ("# basedir: " +:+ basedir script_dir abspath realpath) w))
  /\ (forall w w1,
        run_main w = (Ok tt, w1) ->
        run_main w1
        = (Ok tt, printed ("# basedir: " +:+ basedir script_dir abspath realpath) w1)).
Proof.
  split; [apply step_present|].
  split; [apply step_writes|].
  split; [intros w; apply main_extends|].
  split; [apply main_complete|].
  intros w w1 [Hfont Hall]%main_ok_complete. by apply main_complete.
Qed.

(** ** Errors of the directory creation *)

(** C7: when the creation of the output directory of a combination raises an
    [OSError], the iteration goes on to write the PNG file if the errno is
    [EEXIST]; with any other errno the iteration raises that error again, the
    loop stops there without visiting the remaining combinations, and so
    does the run, which ends with status 1. *)
Theorem makedirs_errors_handled suite lic chars d bg fg ctx w errno w2 :
  let c := (suite, lic, (chars, d, bg, fg)) in
  visible c = true -> file c ∉ fs w -> render c = Ok ctx ->
  mkdirs (dir suite lic bg fg)
         (logged (EvGenicon suite chars (dim2 d) (dim3 d) (dim0 d) (dim1 d)
                            bg fg) w)
  = (Raise (OSError errno), w2) ->
  (errno = EEXIST -> step c w = write ctx (file c) w2)
  /\ (errno <> EEXIST ->
      step c w = (Raise (OSError errno), w2)
      /\ forall l1 l2 w0,
           combinations = l1 ++ c :: l2 ->
           "CC Icons" ∈ font_families ->
           for_each l1 step
             (printed ("# basedir: " +:+ basedir script_dir abspath realpath) w0)
           = (Ok tt, w) ->
           run_main w0 = (Raise (OSError errno), w2)
           /\ (run_script w0).1 = 1%Z).
Proof.
  intros c Hv Hnin Hr Hmk.
  assert (step c w
          = if (errno =? EEXIST)%Z then write ctx (file c) w2
            else (Raise (OSError errno), w2)) as Hstep.
  { rewrite step_render by done. unfold c. cbv zeta.
    fold c. rewrite Hr, Hmk. done. }
  split.
  - intros ->. by rewrite Hstep.
  - intros Hne. apply Z.eqb_neq in Hne as Hneb. rewrite Hneb in Hstep.
    split; [done|]. intros l1 l2 w0 Hcomb Hfont Hl1.
    assert (run_main w0 = (Raise (OSError errno), w2)) as Hmain.
    { rewrite main_combinations, Hcomb by done. by eapply for_each_raise. }
    split; [done|]. unfold script. by rewrite Hmain.
Qed.

(** ** Exit status *)

(** C8: the status of the process is 0 when [main] returns, 130 when it is
    stopped by [KeyboardInterrupt], with a line on the error stream, and 1
    when it raises an exception of class [Exception], which is printed to
    the error stream first; a missing "CC Icons" font is such an exception,
    raised before anything else is done, with a message that says so. *)
Theorem exit_status (w : world) :
  match run_main w with
  | (Ok _, w') => run_script w = (0%Z, w')
  | (Raise KeyboardInterrupt, w') =>
      run_script w
      = (130%Z, eprint (Line "INFO (130) Halted via KeyboardInterrupt.") w')
  | (Raise e, w') =>
      is_Exception e = true ->
      run_script w
      = (1%Z, eprint (Line "None")
                (eprint (Traceback e)
                   (eprint (Line "ERROR (1) Unhandled exception:") w')))
  end
  /\ ("CC Icons" ∉ font_families ->
      run_main w
      = (Raise (Exception
           "CC Icons font not installed. See <https://wiki.debian.org/Fonts>."),
         w)
      /\ run_script w
         = (1%Z, eprint (Line "None")
                   (eprint (Traceback font_missing)
                      (eprint (Line "ERROR (1) Unhandled exception:") w)))).
Proof.
  split.
  - unfold script. destruct (run_main w) as [[[]|e] w']; [done|].
    destruct e; done.
  - intros Hfont. unfold script. by rewrite main_font_missing.
Qed.

End DriverProperties.

(** * Variants of a descriptor *)

Lemma pretty_N_go_no_sep (x : N) (s : string) :
  no_sep s = true -> no_sep (pretty_N_go x s) = true.
Proof.
  revert s. induction (N.lt_wf_0 x) as [x _ IH]. intros s Hs.
  destruct (decide (0 < x)%N) as [Hx|Hx].
  - rewrite pretty_N_go_step by done. apply IH.
    + apply N.div_lt; [done | lia].
    + rewrite no_sep_cons, Hs, andb_true_r.
      unfold pretty_N_char. by repeat case_match.
  - replace x with 0%N by lia. by rewrite pretty_N_go_0.
Qed.

Lemma str_of_int_no_sep (n : Z) : no_sep (str_of_int n) = true.
Proof.
  unfold str_of_int, pretty, pretty_Z, pretty, pretty_positive, pretty, pretty_N.
  destruct n as [|p|p]; [done| |].
  - rewrite decide_False by done. by apply pretty_N_go_no_sep.
  - rewrite decide_False by done.
    change ("-" +:+ ?s) with (String "-" s). rewrite no_sep_cons.
    by rewrite pretty_N_go_no_sep.
Qed.

Lemma icon_filename_rule (dimensions : dimension) (characters : string) :
  icon_filename dimensions characters
  = str_of_int (dim0 dimensions) +:+ "x" +:+ str_of_int (dim1 dimensions)
      +:+ suffix_rule characters +:+ ".png".
Proof. unfold icon_filename, suffix_rule. by rewrite !contains_char. Qed.

Lemma icon_filename_component (d : dimension) (chars : string) :
  is_component (icon_filename d chars) = true.
Proof.
  rewrite icon_filename_rule. unfold is_component.
  rewrite !no_sep_append, !str_of_int_no_sep. rewrite andb_true_iff. split.
  - apply negb_true_iff, String.eqb_neq. intros E.
    apply (f_equal (fun s => length (Str.chars s))) in E.
    rewrite !chars_append, !length_app in E. simpl in E. lia.
  - unfold suffix_rule. by repeat case_bool_decide.
Qed.

Lemma suffix_png_inj (c1 c2 : string) :
  suffix_rule c1 +:+ ".png" = suffix_rule c2 +:+ ".png" ->
  suffix_rule c1 = suffix_rule c2.
Proof. unfold suffix_rule. by repeat case_bool_decide. Qed.

Lemma icon_filename_suffix (d : dimension) (c1 c2 : string) :
  icon_filename d c1 = icon_filename d c2 -> suffix_rule c1 = suffix_rule c2.
Proof.
  rewrite !icon_filename_rule. intros E.
  do 3 apply append_inv_head in E. by apply suffix_png_inj.
Qed.

(** Joining two different relative names to one directory gives two
    different paths. *)
Lemma join_entries_distinct (directory f1 f2 : string) :
  is_component f1 = true -> is_component f2 = true -> f1 <> f2 ->
  OsPath.join directory [f1] <> OsPath.join directory [f2].
Proof.
  unfold is_component. rewrite !andb_true_iff. intros [_ H1] [_ H2] Hne.
  unfold OsPath.join. cbn [fold_left]. unfold OsPath.join_step.
  rewrite !startswith_sep_false by done.
  destruct (_ || _); intros E; apply append_inv_head in E;
    [|apply (append_inv_head "/") in E]; done.
Qed.

Lemma table_suffixes_distinct :
  Forall (fun module_chars => NoDup (suffix_rule <$> module_chars)) all_variants.
Proof. apply (bool_decide_unpack _). by vm_compute. Qed.

Lemma variants_in_table suite licenses lic module_chars :
  (suite, licenses) ∈ SUITES -> (lic, module_chars) ∈ licenses ->
  module_chars ∈ all_variants.
Proof.
  intros Hs Hl. unfold all_variants. apply list_elem_of_bind.
  exists (suite, licenses). split; [|done].
  apply list_elem_of_fmap. by exists (lic, module_chars).
Qed.

(** C9: the character-code variants of a descriptor of the [SUITES] table get
    pairwise different suffixes, hence, for the same dimensions, different
    file names, different paths once joined to one directory, and different
    output files for the same background and foreground wherever path
    resolution keeps the entries of a directory apart. *)
Theorem variants_distinct_files suite licenses lic module_chars i j c1 c2 :
  (suite, licenses) ∈ SUITES -> (lic, module_chars) ∈ licenses ->
  module_chars !! i = Some c1 -> module_chars !! j = Some c2 -> i <> j ->
  suffix_rule c1 <> suffix_rule c2
  /\ (forall d, icon_filename d c1 <> icon_filename d c2)
  /\ (forall d directory,
        OsPath.join directory [icon_filename d c1]
        <> OsPath.join directory [icon_filename d c2])
  /\ (forall script_dir abspath realpath d background foreground,
        entries_distinct abspath realpath ->
        icon_file script_dir abspath realpath suite lic c1 d background foreground
        <> icon_file script_dir abspath realpath suite lic c2 d background
                     foreground).
Proof.
  intros Hs Hl H1 H2 Hij.
  assert (suffix_rule c1 <> suffix_rule c2) as Hsuffix.
  { pose proof table_suffixes_distinct as Hall. rewrite Forall_forall in Hall.
    pose proof (Hall _ (variants_in_table _ _ _ _ Hs Hl)) as Hnd.
    intros E. apply Hij. apply (NoDup_lookup _ i j (suffix_rule c1) Hnd).
    - by rewrite list_lookup_fmap, H1.
    - by rewrite list_lookup_fmap, H2, E. }
  assert (forall d, icon_filename d c1 <> icon_filename d c2) as Hname
    by (intros d E; by apply Hsuffix, (icon_filename_suffix d)).
  split; [done|]. split; [done|]. split.
  - intros d directory.
    apply join_entries_distinct; auto using icon_filename_component.
  - intros script_dir abspath realpath d bg fg Hres. unfold icon_file.
    apply Hres; auto using icon_filename_component.
Qed.

Lemma same_path_entries_distinct : entries_distinct same_path same_path.
Proof. intros directory f1 f2 H1 H2 Hne. by apply join_entries_distinct. Qed.

Lemma variants_distinct_files_witness :
  suffix_rule "bn" <> suffix_rule "by"
  /\ (forall d, icon_filename d "bn" <> icon_filename d "by")
  /\ icon_file srv same_path same_path "l" "by-nc" "bn" (88, 31, 31, 1)%Z
               "000000" "ffffff"
     <> icon_file srv same_path same_path "l" "by-nc" "by" (88, 31, 31, 1)%Z
                  "000000" "ffffff".
Proof.
  assert (exists licenses,
            ("l", licenses) ∈ SUITES
            /\ ("by-nc", ["bn"; "be"; "by"]) ∈ licenses) as (licenses & Hs & Hl).
  { eexists. split; [apply list_elem_of_here|].
    apply list_elem_of_further, list_elem_of_here. }
  destruct (variants_distinct_files "l" licenses "by-nc" ["bn"; "be"; "by"]
              0 2 "bn" "by" Hs Hl eq_refl eq_refl ltac:(lia))
    as (Hsuffix & Hname & _ & Hfile).
  split; [exact Hsuffix|]. split; [exact Hname|].
  exact (Hfile srv same_path same_path (88, 31, 31, 1)%Z "000000" "ffffff"
               same_path_entries_distinct).
Defined.

(** * The properties on the concrete machine *)

Lemma installed_fonts_has_icons : "CC Icons" ∈ installed_fonts.
Proof. apply list_elem_of_further, list_elem_of_here. Qed.

Lemma full_tree_complete : complete srv same_path same_path full_tree.
Proof.
  intros c Hc _. unfold full_tree.
  apply elem_of_list_to_set. by apply list_elem_of_fmap_2.
Qed.

Lemma generation_idempotent_witness :
  main tall_glyphs installed_fonts srv same_path same_path
       no_makedirs_error no_write_error full_world
  = (Ok tt, printed basedir_line full_world)
  /\ main tall_glyphs installed_fonts srv same_path same_path
          no_makedirs_error no_write_error (printed basedir_line full_world)
     = (Ok tt, printed basedir_line (printed basedir_line full_world)).
Proof.
  destruct (generation_idempotent tall_glyphs installed_fonts srv same_path
              same_path no_makedirs_error no_write_error)
    as (_ & _ & _ & Hcomplete & Hsecond).
  pose proof (Hcomplete full_world installed_fonts_has_icons full_tree_complete)
    as Hfirst.
  split; [exact Hfirst|].
  exact (Hsecond full_world _ Hfirst).
Defined.

Lemma exit_status_witness :
  ("CC Icons" ∉ ["DejaVu Sans"])
  /\ script tall_glyphs ["DejaVu Sans"] srv same_path same_path
            no_makedirs_error no_write_error empty_world
     = (1%Z, eprint (Line "None")
               (eprint (Traceback font_missing)
                  (eprint (Line "ERROR (1) Unhandled exception:") empty_world))).
Proof.
  assert ("CC Icons" ∉ ["DejaVu Sans"]) as Hfont.
  { intros [E|H]%elem_of_cons; [done | by apply elem_of_nil in H]. }
  split; [exact Hfont|].
  exact (proj2 (proj2 (exit_status tall_glyphs ["DejaVu Sans"] srv same_path
                         same_path no_makedirs_error no_write_error
                         empty_world) Hfont)).
Defined.

Lemma combinations_first : combinations = first_combination :: tail combinations.
Proof.
  assert (head combinations = Some first_combination) as H by (by lazy).
  by destruct combinations as [|c l]; simplify_eq/=.
Qed.

Lemma makedirs_errors_handled_witness :
  let w := printed basedir_line empty_world in
  let g := EvGenicon "l" "b" 31 1 88 31 "transparent" "000000" in
  let path := icon_dir srv same_path same_path "l" "by" "transparent" "000000" in
  let w2 := logged (EvMakedirs path) (logged g w) in
  (step tall_glyphs srv same_path same_path (refuse 13) no_write_error
        first_combination w
   = (Raise (OSError 13), w2)
   /\ main tall_glyphs installed_fonts srv same_path same_path (refuse 13)
           no_write_error empty_world
      = (Raise (OSError 13), w2)
   /\ (script tall_glyphs installed_fonts srv same_path same_path (refuse 13)
              no_write_error empty_world).1 = 1%Z)
  /\ (exists ctx,
        render_of tall_glyphs first_combination = Ok ctx
        /\ step tall_glyphs srv same_path same_path (refuse EEXIST)
                no_write_error first_combination w
           = write_to_png no_write_error ctx
               (file_of srv same_path same_path first_combination) w2).
Proof.
  intros w g path w2.
  destruct (render_of tall_glyphs first_combination) as [ctx|e] eqn:Hr;
    [|by vm_compute in Hr].
  assert (file_of srv same_path same_path first_combination ∉ fs w) as Hnin
    by apply not_elem_of_empty.
  split.
  - destruct (makedirs_errors_handled tall_glyphs installed_fonts srv same_path
                same_path (refuse 13) no_write_error
                "l" "by" "b" (88, 31, 31, 1)%Z "transparent" "000000"
                ctx w 13%Z w2 eq_refl Hnin Hr eq_refl) as [_ Hother].
    destruct Hother as [Hstep Hbatch]; [done|].
    split; [exact Hstep|].
    apply (Hbatch [] (tail combinations) empty_world);
      [exact combinations_first | apply installed_fonts_has_icons | done].
  - exists ctx. split; [done|].
    destruct (makedirs_errors_handled tall_glyphs installed_fonts srv same_path
                same_path (refuse EEXIST) no_write_error
                "l" "by" "b" (88, 31, 31, 1)%Z "transparent" "000000"
                ctx w EEXIST w2 eq_refl Hnin Hr eq_refl) as [Hexist _].
    by apply Hexist.
Defined.

(** * More on file names *)

Lemma pretty_N_go_int_chars (x : N) (s : string) :
  forallb is_int_char (Str.chars s) = true ->
  forallb is_int_char (Str.chars (pretty_N_go x s)) = true.
Proof.
  revert s. induction (N.lt_wf_0 x) as [x _ IH]. intros s Hs.
  destruct (decide (0 < x)%N) as [Hx|Hx].
  - rewrite pretty_N_go_step by done. apply IH.
    + apply N.div_lt; [done | lia].
    + cbn [Str.chars forallb]. rewrite Hs, andb_true_r.
      unfold pretty_N_char. by repeat case_match.
  - replace x with 0%N by lia. by rewrite pretty_N_go_0.
Qed.

(** [str(n)] prints decimal digits and the minus sign only. *)
Lemma str_of_int_chars (n : Z) :
  forallb is_int_char (Str.chars (str_of_int n)) = true.
Proof.
  unfold str_of_int, pretty, pretty_Z, pretty, pretty_positive, pretty, pretty_N.
  destruct n as [|p|p]; [done| |].
  - rewrite decide_False by done. by apply pretty_N_go_int_chars.
  - rewrite decide_False by done.
    change ("-" +:+ ?s) with (String "-" s). cbn [Str.chars forallb].
    by rewrite pretty_N_go_int_chars.
Qed.

(** Two strings that agree, each a run of integer characters followed by a
    character that is not one and a rest, have the same run and rest. *)
Lemma split_after_int (a a' r r' : string) (c : ascii) :
  is_int_char c = false ->
  forallb is_int_char (Str.chars a) = true ->
  forallb is_int_char (Str.chars a') = true ->
  a +:+ String c r = a' +:+ String c r' -> a = a' /\ r = r'.
Proof.
  intros Hc. revert a'.
  induction a as [|x a IH]; intros [|y a'] Ha Ha'; str_simpl.
  - by intros [= ->].
  - intros [= <- _]. apply andb_true_iff in Ha' as [Hy _]. congruence.
  - intros [= -> _]. apply andb_true_iff in Ha as [Hx _]. congruence.
  - intros [= -> E]. apply andb_true_iff in Ha as [_ Ha].
    apply andb_true_iff in Ha' as [_ Ha'].
    destruct (IH a' Ha Ha' E) as [-> ->]. done.
Qed.

Lemma chars_inj (a b : string) : Str.chars a = Str.chars b -> a = b.
Proof.
  revert b. induction a as [|x a IH]; intros [|y b]; simpl; try done.
  intros [= -> ?]. f_equal. auto.
Qed.

Lemma append_inv_tail (a b c : string) : a +:+ c = b +:+ c -> a = b.
Proof.
  intros E. apply chars_inj.
  apply (f_equal Str.chars) in E. rewrite !chars_append in E.
  by apply app_inv_tail in E.
Qed.

Lemma append_empty_r (a : string) : a +:+ "" = a.
Proof. induction a as [|x a IH]; str_simpl; [done | by rewrite IH]. Qed.

Lemma suffix_rule_cases (c : string) :
  suffix_rule c = "-y" \/ suffix_rule c = "-e" \/ suffix_rule c = "".
Proof. unfold suffix_rule. repeat case_bool_decide; auto. Qed.

Lemma int_chars_tail (s t : string) :
  forallb is_int_char (Str.chars (s +:+ t)) = true ->
  forallb is_int_char (Str.chars t) = true.
Proof. rewrite chars_append, forallb_app, andb_true_iff. tauto. Qed.

(** The tail of a file name, the suffix and the extension, determines the
    suffix and what precedes it. *)
Lemma height_suffix_inj (h h' : Z) (c c' : string) :
  str_of_int h +:+ suffix_rule c +:+ ".png"
  = str_of_int h' +:+ suffix_rule c' +:+ ".png" ->
  h = h' /\ suffix_rule c = suffix_rule c'.
Proof.
  intros E. rewrite <- !append_assoc in E. apply append_inv_tail in E.
  pose proof (str_of_int_chars h) as Hh. pose proof (str_of_int_chars h') as Hh'.
  assert (forall s t u : string,
            String.length t = String.length u -> s +:+ t = str_of_int h' +:+ u ->
            s = str_of_int h' /\ t = u) as Hsame.
  { intros s t u Hlen E'. apply (f_equal Str.chars) in E'.
    rewrite !chars_append in E'.
    apply app_inj_2 in E' as [E1 E2]; [|by rewrite !length_chars].
    split; by apply chars_inj. }
  destruct (suffix_rule_cases c) as [Hc|[Hc|Hc]],
           (suffix_rule_cases c') as [Hc'|[Hc'|Hc']];
    rewrite Hc, Hc' in E |- *; rewrite ?append_empty_r in E.
  - apply append_inv_tail, (inj pretty) in E. done.
  - by apply Hsame in E as [_ ?].
  - rewrite <- E in Hh'. by apply int_chars_tail in Hh'.
  - by apply Hsame in E as [_ ?].
  - apply append_inv_tail, (inj pretty) in E. done.
  - rewrite <- E in Hh'. by apply int_chars_tail in Hh'.
  - rewrite E in Hh. by apply int_chars_tail in Hh.
  - rewrite E in Hh. by apply int_chars_tail in Hh.
  - apply (inj pretty) in E. done.
Qed.

(** X1: two file names coincide exactly when the widths, the heights and the
    suffixes of the character codes coincide; the font size and the padding
    of a dimension tuple never show in the name. *)
Theorem icon_filename_collision (d d' : dimension) (c c' : string) :
  icon_filename d c = icon_filename d' c'
  <-> dim0 d = dim0 d' /\ dim1 d = dim1 d' /\ suffix_rule c = suffix_rule c'.
Proof.
  rewrite !icon_filename_rule. split.
  - intros E.
    change ("x" +:+ ?s) with (String "x" s) in E.
    apply split_after_int in E as [Hw E];
      [|done|apply str_of_int_chars|apply str_of_int_chars].
    apply (inj pretty) in Hw. apply height_suffix_inj in E as [Hh Hs].
    done.
  - by intros (-> & -> & ->).
Qed.

(** X2: a file name is a plain name: it is not empty, holds no separator and
    ends with the extension [.png], whatever the dimensions and characters. *)
Theorem icon_filename_plain (d : dimension) (c : string) :
  is_component (icon_filename d c) = true
  /\ exists stem, icon_filename d c = stem +:+ ".png".
Proof.
  split; [apply icon_filename_component|].
  rewrite icon_filename_rule.
  exists (str_of_int (dim0 d) +:+ "x" +:+ str_of_int (dim1 d) +:+ suffix_rule c).
  by rewrite !append_assoc.
Qed.

(** * More on directories and colours *)

Lemma slices_of_six (f rest : string) :
  String.length f = 6 ->
  Str.slice 0 2 (f +:+ rest) = Str.slice 0 2 f
  /\ Str.slice 2 4 (f +:+ rest) = Str.slice 2 4 f
  /\ Str.slice 4 6 (f +:+ rest) = Str.slice 4 6 f.
Proof.
  intros Hlen.
  destruct f as [|a [|b [|c [|d [|e [|g [|]]]]]]]; try discriminate Hlen.
  rewrite !append_cons. unfold Str.slice. cbn [substring Nat.sub].
  by destruct ("" +:+ rest).
Qed.

(** X3: [icon_path] reads the first six characters of the foreground only:
    whatever follows them does not change the directory. *)
Theorem icon_path_first_six (suite descriptor background f rest : string) :
  String.length f = 6 ->
  icon_path suite descriptor background (f +:+ rest)
  = icon_path suite descriptor background f.
Proof.
  intros (E1 & E2 & E3)%(slices_of_six f rest).
  unfold icon_path. by rewrite E1, E2, E3.
Qed.

Lemma icon_path_first_six_witness :
  icon_path "l" "by" "000000" ("ffffff" +:+ "80")
  = icon_path "l" "by" "000000" "ffffff".
Proof. exact (icon_path_first_six "l" "by" "000000" "ffffff" "80" eq_refl). Defined.

Lemma join_step_absolute (path b : string) :
  Str.startswith OsPath.sep b = true -> OsPath.join_step path b = b.
Proof. intros H. unfold OsPath.join_step. by rewrite H. Qed.

Lemma join_step_keeps_root (path b : string) :
  Str.startswith OsPath.sep path = true ->
  Str.startswith OsPath.sep (OsPath.join_step path b) = true.
Proof.
  intros H. unfold OsPath.join_step.
  destruct (Str.startswith OsPath.sep b) eqn:Hb; [done|].
  destruct path as [|c path]; [done|].
  destruct (_ || _); rewrite append_cons; unfold Str.startswith, OsPath.sep in *;
    by rewrite prefix_char_cons in *.
Qed.

(** X4: a component that starts with a separator discards what precedes it:
    with such a background the directory depends on neither the suite nor
    the descriptor, and with such a foreground not on the background
    either. *)
Theorem icon_path_absolute_component (s d s' d' b b' f : string) :
  (Str.startswith "/" b = true -> icon_path s d b f = icon_path s' d' b f)
  /\ (Str.startswith "/" f = true -> icon_path s d b f = icon_path s' d' b' f).
Proof.
  split; intros H; unfold icon_path, OsPath.join; cbn [fold_left].
  - by rewrite !(join_step_absolute _ b).
  - set (fp := OsPath.join_step (OsPath.join_step (Str.slice 0 2 f) _) _).
    assert (Str.startswith OsPath.sep fp = true) as Hfp.
    { unfold fp. do 2 apply join_step_keeps_root.
      destruct f as [|x f]; [discriminate H|].
      unfold Str.startswith, OsPath.sep, Str.slice in *.
      cbn [substring Nat.sub]. rewrite prefix_char_cons in H.
      by rewrite prefix_char_cons. }
    by rewrite !(join_step_absolute _ fp).
Qed.

Lemma icon_path_absolute_component_witness :
  icon_path "l" "by" "/etc" "ffffff" = icon_path "p" "cc-zero" "/etc" "ffffff"
  /\ icon_path "l" "by" "000000" "/tmp/x" = icon_path "p" "cc-zero" "ffffff" "/tmp/x".
Proof.
  split.
  - exact (proj1 (icon_path_absolute_component "l" "by" "p" "cc-zero" "/etc"
                    "/etc" "ffffff") eq_refl).
  - exact (proj2 (icon_path_absolute_component "l" "by" "p" "cc-zero" "000000"
                    "ffffff" "/tmp/x") eq_refl).
Defined.

(** X5: [set_color] reads the first six characters of a colour only: after
    six hexadecimal digits, whatever follows (an alpha channel, say) is
    ignored. *)
Theorem set_color_first_six (ctx : Cairo.context) (f rest : string) :
  is_hex6 f = true -> set_color ctx (f +:+ rest) = set_color ctx f.
Proof.
  intros Hf.
  assert (String.length f = 6) as Hlen
    by (unfold is_hex6 in Hf; apply andb_true_iff in Hf as [Hl _];
        by apply Nat.eqb_eq).
  destruct (slices_of_six f rest Hlen) as (E1 & E2 & E3).
  apply hex6_shape in Hf as (a & b & c & d & e & g & -> & Hhex).
  unfold set_color. rewrite E1, E2, E3.
  assert (is_hex_char a = true) as Ha by (by inversion Hhex).
  assert (forall s, Str.eqb (String a s) "transparent" = false) as Hne.
  { intros s. unfold Str.eqb. apply String.eqb_neq. intros [= -> _]. done. }
  rewrite !append_cons. by rewrite !Hne.
Qed.

Lemma set_color_first_six_witness :
  is_hex6 "ff9900" = true
  /\ set_color (create_context 88 31) ("ff9900" +:+ "80")
     = set_color (create_context 88 31) "ff9900".
Proof.
  split; [reflexivity|].
  exact (set_color_first_six (create_context 88 31) "ff9900" "80" eq_refl).
Defined.

Lemma hex_digit_lower (c : ascii) :
  is_hex_char c = true ->
  hex_digit (ascii_lower c) = hex_digit c /\ is_hex_char (ascii_lower c) = true.
Proof. destruct c as [[] [] [] [] [] [] [] []]; by vm_compute. Qed.

(** X6: colours are read without regard to the case of their digits: a
    colour of six hexadecimal digits and its lower-case form set the same
    source colour. *)
Theorem set_color_case (ctx : Cairo.context) (f : string) :
  is_hex6 f = true -> set_color ctx (str_lower f) = set_color ctx f.
Proof.
  intros (a & b & c & d & e & g & -> & Hhex)%hex6_shape.
  assert (forall x, x ∈ [a; b; c; d; e; g] ->
                    hex_digit (ascii_lower x) = hex_digit x) as Hlow.
  { intros x Hx. rewrite Forall_forall in Hhex.
    by apply hex_digit_lower, Hhex. }
  assert (is_hex_char (ascii_lower a) = true /\ is_hex_char a = true) as [Hla Ha].
  { rewrite Forall_forall in Hhex.
    assert (is_hex_char a = true) as Ha by (apply Hhex, list_elem_of_here).
    split; [by apply hex_digit_lower | done]. }
  assert (forall x s, is_hex_char x = true ->
                      Str.eqb (String x s) "transparent" = false) as Hne.
  { intros x s Hx. unfold Str.eqb. apply String.eqb_neq. intros [= -> _]. done. }
  unfold set_color. cbn [str_lower]. rewrite !Hne by done.
  unfold Str.slice. cbn [substring Nat.sub].
  unfold hex_to_float, int_base16. cbn [int16_digits].
  rewrite !Hlow; [done|..]; set_solver.
Qed.

Lemma set_color_case_witness :
  is_hex6 "FF99aB" = true
  /\ set_color (create_context 88 31) "ff99ab"
     = set_color (create_context 88 31) "FF99aB".
Proof.
  split; [reflexivity|].
  exact (set_color_case (create_context 88 31) "FF99aB" eq_refl).
Defined.

Lemma channels_increase_all :
  forallb (fun n => forallb (channel_pair_check n) (seqZ 0 256)) (seqZ 0 256)
  = true.
Proof. vm_compute. reflexivity. Qed.

(** X7: the conversion of a channel keeps the order of the values strictly:
    of two pairs of hexadecimal digits, the one with the smaller value gets
    the strictly smaller intensity, so no two of the 256 values share an
    intensity; ["00"] gives 0.0 and ["ff"] gives 1.0 exactly. *)
Theorem hex_to_float_increasing (d1 d2 : string) (n m : Z) :
  int_base16 d1 = Ok n -> int_base16 d2 = Ok m -> (0 <= n < m)%Z -> (m <= 255)%Z ->
  (exists r1 r2, hex_to_float d1 = Ok r1 /\ hex_to_float d2 = Ok r2
                 /\ SFltb r1 r2 = true)
  /\ hex_to_float "00" = Ok PyFloat.zero /\ hex_to_float "ff" = Ok PyFloat.one.
Proof.
  intros H1 H2 Hnm Hm. split; [|split; by vm_compute].
  rewrite (hex_to_float_product _ _ H1), (hex_to_float_product _ _ H2).
  pose proof channels_increase_all as Hall.
  rewrite forallb_forall in Hall.
  assert (In n (seqZ 0 256)) as Hn by (apply list_elem_of_In, elem_of_seqZ; lia).
  assert (In m (seqZ 0 256)) as Hm' by (apply list_elem_of_In, elem_of_seqZ; lia).
  pose proof (Hall n Hn) as Hrow. rewrite forallb_forall in Hrow.
  pose proof (Hrow m Hm') as Hpair. unfold channel_pair_check in Hpair.
  rewrite (proj2 (Z.ltb_lt n m)) in Hpair by lia.
  destruct (product255 n) as [a|]; [|done].
  destruct (product255 m) as [b|]; [|done]. eauto.
Qed.

Lemma hex_to_float_increasing_witness :
  exists r1 r2, hex_to_float "7f" = Ok r1 /\ hex_to_float "80" = Ok r2
                /\ SFltb r1 r2 = true.
Proof.
  exact (proj1 (hex_to_float_increasing "7f" "80" 127 128 eq_refl eq_refl
                  ltac:(lia) ltac:(lia))).
Defined.

(** * More on rendering *)








Lemma same_ink_sizes (te1 te2 : Cairo.context -> ascii -> Cairo.extents)
    (ctx : Cairo.context) (cs : list ascii) :
  (forall c, c ∈ cs ->
     Cairo.ink_width (te1 ctx c) = Cairo.ink_width (te2 ctx c)
     /\ Cairo.ink_height (te1 ctx c) = Cairo.ink_height (te2 ctx c)) ->
  Forall2 (fun a b => Cairo.ink_width a = Cairo.ink_width b
                      /\ Cairo.ink_height a = Cairo.ink_height b)
          (te1 ctx <$> cs) (te2 ctx <$> cs).
Proof.
  induction cs as [|c cs IH]; intros H; [constructor|].
  rewrite !fmap_cons. constructor.
  - apply H, list_elem_of_here.
  - apply IH. intros c' Hc'. by apply H, list_elem_of_further.
Qed.

Lemma draw_chars_ink ctx x y padding (cs : list ascii) (s1 s2 : list Cairo.extents) :
  Forall2 (fun a b => Cairo.ink_width a = Cairo.ink_width b
                      /\ Cairo.ink_height a = Cairo.ink_height b) s1 s2 ->
  draw_chars ctx x y padding (zip cs s1) = draw_chars ctx x y padding (zip cs s2).
Proof.
  intros H. revert ctx x cs.
  induction H as [|a b s1 s2 [Hw _] _ IH]; intros ctx x cs.
  - by destruct cs.
  - destruct cs as [|c cs]; [done|]. cbn [zip zip_with draw_chars].
    destruct (PyFloat.ceil x) as [cx|]; [|done].
    cbv beta iota zeta delta [mbind result_bind rbind].
    destruct (PyFloat.of_int padding) as [pf|]; [|done].
    unfold Cairo.item2. rewrite Hw. apply IH.
Qed.

Lemma total_width_ink (s1 s2 : list Cairo.extents) :
  Forall2 (fun a b => Cairo.ink_width a = Cairo.ink_width b
                      /\ Cairo.ink_height a = Cairo.ink_height b) s1 s2 ->
  total_width s1 = total_width s2.
Proof.
  intros H. apply total_width_heights.
  induction H as [|a b l1 l2 [_ Hh] _ IH]; [done|].
  rewrite !fmap_cons. by rewrite Hh, IH.
Qed.

Lemma start_y_ink (s1 s2 : list Cairo.extents) (height : Z) :
  Forall2 (fun a b => Cairo.ink_width a = Cairo.ink_width b
                      /\ Cairo.ink_height a = Cairo.ink_height b) s1 s2 ->
  start_y s1 height = start_y s2 height.
Proof.
  intros H. unfold start_y. destruct H as [|a b l1 l2 [_ Hh] _]; [done|].
  cbv beta iota zeta delta [mbind result_bind rbind].
  destruct (PyFloat.int_truediv height 2) as [h2|]; [|done].
  destruct (PyFloat.ceil h2) as [ch|]; [|done].
  unfold Cairo.item3. by rewrite Hh.
Qed.

(** X9: of the extents cairo reports for a character, [show_chars] uses the
    ink width and the ink height only: two fonts that agree on these for the
    characters of the code give the same drawing, whatever their bearings
    and advances. *)
Theorem show_chars_ink_only te1 te2 ctx chars foreground padding width height :
  same_ink te1 te2 ctx chars ->
  show_chars te1 ctx chars foreground padding width height
  = show_chars te2 ctx chars foreground padding width height.
Proof.
  intros H%same_ink_sizes. unfold show_chars, size_chars. cbv zeta.
  unfold start_x. rewrite (total_width_ink _ _ H), (start_y_ink _ _ height H).
  fold (start_x (te2 ctx <$> Str.chars chars)
          (padding * (Z.of_nat (String.length chars) - 1)) width).
  destruct (start_x _ _ _) as [x|]; [|done].
  destruct (start_y _ _) as [y|]; [|done].
  cbv beta iota zeta delta [mbind result_bind rbind].
  destruct (set_color ctx foreground) as [ctx1|]; [|done].
  by rewrite (draw_chars_ink ctx1 x y padding (Str.chars chars) _ _ H).
Qed.

Lemma show_chars_ink_only_witness :
  same_ink tall_glyphs tall_glyphs_shifted (create_context 88 31) "bna"
  /\ show_chars tall_glyphs (create_context 88 31) "bna" "ffffff" 1 88 31
     = show_chars tall_glyphs_shifted (create_context 88 31) "bna" "ffffff"
                  1 88 31.
Proof.
  assert (same_ink tall_glyphs tall_glyphs_shifted (create_context 88 31) "bna")
    as H by (intros c _; by split).
  split; [exact H|].
  exact (show_chars_ink_only _ _ _ _ "ffffff" 1%Z 88%Z 31%Z H).
Defined.

(** * More on the driver *)

Section DriverMore.

Variable text_extents : Cairo.context -> ascii -> Cairo.extents.
Variable font_families : list string.
Variable script_dir : string.
Variable abspath realpath : string -> string.
Variable makedirs_error : string -> gset string -> option exn.
Variable write_error : string -> Cairo.context -> gset string -> option exn.

Local Abbreviation run_main :=
  (main text_extents font_families script_dir abspath realpath
        makedirs_error write_error).
Local Abbreviation run_script :=
  (script text_extents font_families script_dir abspath realpath
          makedirs_error write_error).
Local Abbreviation file := (file_of script_dir abspath realpath).
Local Abbreviation dir := (dir_of script_dir abspath realpath).
Local Abbreviation render := (render_of text_extents).
Local Abbreviation mkdirs := (os_makedirs makedirs_error).
Local Abbreviation write := (write_to_png write_error).
Local Abbreviation step :=
  (step text_extents script_dir abspath realpath makedirs_error write_error).
Local Abbreviation first_line :=
  ("# basedir: " +:+ basedir script_dir abspath realpath).

Lemma makedirs_outcome (path : string) (w : world) :
  trace (mkdirs path w).2 = trace w ++ [EvMakedirs path]
  /\ stdout (mkdirs path w).2 = stdout w
  /\ stderr (mkdirs path w).2 = stderr w
  /\ fs w ⊆ fs (mkdirs path w).2
  /\ fs (mkdirs path w).2 ⊆ fs w ∪ list_to_set (ancestors path).
Proof.
  unfold os_makedirs, mbind, M_bind, log, makedirs_effect. cbn [fs].
  destruct (makedirs_error _ _); [|destruct (bool_decide _)]; cbn;
    repeat split; set_solver.
Qed.

Lemma write_outcome (ctx : Cairo.context) (p : string) (w : world) :
  trace (write ctx p w).2 = trace w ++ [EvWritePng p ctx]
  /\ stdout (write ctx p w).2 = stdout w
  /\ stderr (write ctx p w).2 = stderr w
  /\ fs w ⊆ fs (write ctx p w).2
  /\ fs (write ctx p w).2 ⊆ fs w ∪ {[ p ]}
  /\ ((write ctx p w).1 = Ok tt -> p ∈ fs (write ctx p w).2).
Proof.
  unfold write_to_png, mbind, M_bind, log, write_effect. cbn [fs].
  destruct (write_error _ _ _); cbn; repeat split; try done; set_solver.
Qed.

Lemma step_rendering (c : combination) (w : world) :
  visible c = true -> file c ∉ fs w ->
  step c w
  = match render c with
    | Raise e => (Raise e, logged (genicon_event c) w)
    | Ok ctx =>
        after_makedirs (mkdirs (dir c) (logged (genicon_event c) w))
                       (write ctx (file c))
    end.
Proof.
  intros Hv Hnin. rewrite step_render by done.
  by destruct c as [[suite lic] [[[chars d] bg] fg]].
Qed.

Local Abbreviation post :=
  (step_post script_dir abspath realpath text_extents).

(** What one iteration does, case by case. *)
Lemma step_cases (c : combination) (w : world) : post c w (step c w).
Proof.
  assert (step c w = (Ok tt, w) -> post c w (step c w)) as Hskip.
  { intros ->. exists []. cbn [snd]. rewrite app_nil_r.
    repeat split; try done; [set_solver|]. by left. }
  destruct (visible c) eqn:Hv; [|by apply Hskip, step_invisible].
  destruct (decide (file c ∈ fs w)) as [Hin|Hnin]; [by apply Hskip, step_present|].
  clear Hskip. rewrite step_rendering by done.
  set (g := genicon_event c). set (m := EvMakedirs (dir c)).
  destruct (render c) as [ctx|e] eqn:Hr.
  2:{ exists [g]. cbn [snd logged trace stdout stderr fs].
      repeat split; try done; [set_solver..|].
      right; left. eauto 10. }
  set (w1 := logged g w).
  assert (forall w2,
            trace w2 = trace w1 ++ [m] -> stdout w2 = stdout w1 ->
            stderr w2 = stderr w1 -> fs w1 ⊆ fs w2 ->
            fs w2 ⊆ fs w1 ∪ list_to_set (ancestors (dir c)) ->
            (forall e, post c w (Raise e, w2))
            /\ post c w (write ctx (file c) w2)) as Hnext.
  { intros w2 Ht2 Ho2 He2 Hf2a Hf2b. split.
    - intros e. exists [g; m]. cbn [fst snd].
      rewrite Ht2, Ho2, He2. cbn [w1 logged trace stdout stderr fs] in *.
      rewrite <- !app_assoc. repeat split; try done; [set_solver..|].
      right; right; left. eauto 10.
    - destruct (write_outcome ctx (file c) w2)
        as (Htw & How & Hew & Hfw1 & Hfw2 & Hok).
      exists [g; m; EvWritePng (file c) ctx].
      rewrite Htw, How, Hew, Ht2, Ho2, He2.
      cbn [w1 logged trace stdout stderr fs] in *.
      rewrite <- !app_assoc. repeat split; try done; [set_solver..|].
      do 3 right. exists ctx. eauto 10. }
  destruct (makedirs_outcome (dir c) w1) as (Ht & Ho & He & Hf1 & Hf2).
  destruct (mkdirs (dir c) w1) as [[[]|e] w2] eqn:Hmk; cbn [snd] in *;
    destruct (Hnext w2 Ht Ho He Hf1 Hf2) as [Hraise Hwrite];
    cbn [after_makedirs]; [done|].
  destruct e; try apply Hraise.
  destruct (errno =? EEXIST)%Z; [done | apply Hraise].
Qed.

(** X10: an iteration follows one protocol: it is skipped and changes
    nothing; or it renders, and stops there if the rendering fails; or it
    then asks for the output directory, and stops there if that fails; or it
    then writes the rendering to the output file of its combination, which
    did not exist.  It prints nothing, removes no path, and adds none but
    that file, its directory and the directories above it. *)
Theorem iteration_protocol (c : combination) (w : world) :
  step_post script_dir abspath realpath text_extents c w (step c w).
Proof. apply step_cases. Qed.

(** ** Files are written once *)

Lemma written_paths_app (l1 l2 : list event) :
  written_paths (l1 ++ l2) = written_paths l1 ++ written_paths l2.
Proof. unfold written_paths. apply bind_app. Qed.

Lemma step_fresh (c : combination) (w : world) : fresh_writes w (step c w).
Proof.
  destruct (step_cases c w) as (evs & Ht & _ & _ & Hsub & _ & Hcases).
  split; [done|]. exists evs. split; [done|].
  destruct c as [[suite lic] [[[chars d] bg] fg]].
  destruct Hcases as [[-> _]|[[-> _]|[[-> _]|(ctx & -> & _ & Hnin & _ & Hok)]]];
    unfold written_paths; csimpl.
  1-3: split; [apply NoDup_nil_2|]; split; [|intros _];
    by intros p ?%elem_of_nil.
  split; [apply NoDup_singleton|].
  split.
  - by intros p ->%list_elem_of_singleton.
  - intros Hr p ->%list_elem_of_singleton. by apply Hok.
Qed.

Lemma for_each_fresh (l : list combination) (w : world) :
  fresh_writes w (for_each l step w).
Proof.
  revert w. induction l as [|c l IH]; intros w.
  { split; [done|]. exists []. cbn. rewrite app_nil_r.
    split; [done|]. split; [apply NoDup_nil_2|].
    split; [|intros _]; by intros p ?%elem_of_nil. }
  cbn [for_each]. unfold mbind, M_bind.
  pose proof (step_fresh c w) as Hstep.
  destruct (step c w) as [[[]|e] w1]; [|exact Hstep].
  destruct Hstep as (Hs1 & evs1 & Ht1 & Hnd1 & Hnew1 & Hin1). cbn [fst snd] in *.
  destruct (IH w1) as (Hs2 & evs2 & Ht2 & Hnd2 & Hnew2 & Hin2).
  split; [set_solver|]. exists (evs1 ++ evs2).
  rewrite Ht2, Ht1, app_assoc, written_paths_app. split; [done|].
  split; [|split].
  - apply NoDup_app. split; [done|]. split; [|done].
    intros p Hp1 Hp2. by apply (Hnew2 p Hp2), Hin1.
  - intros p [Hp|Hp]%elem_of_app; [by apply Hnew1|].
    intros Hfs. apply (Hnew2 p Hp). by apply Hs1.
  - intros Hok p [Hp|Hp]%elem_of_app; [|by apply Hin2].
    apply Hs2. by apply Hin1.
Qed.

(** X11: a run writes no path that existed when it started, and writes no
    path twice. *)
Theorem run_writes_once (w : world) :
  exists evs,
    trace (run_main w).2 = trace w ++ evs
    /\ NoDup (written_paths evs)
    /\ (forall p, p ∈ written_paths evs -> p ∉ fs w).
Proof.
  destruct (decide ("CC Icons" ∈ font_families)) as [Hin|Hnin].
  - rewrite main_combinations by done.
    destruct (for_each_fresh combinations (printed first_line w))
      as (_ & evs & Ht & Hnd & Hnew & _).
    exists evs. done.
  - rewrite main_font_missing by done. exists []. cbn. rewrite app_nil_r.
    split; [done|]. split; [apply NoDup_nil_2|]. by intros p ?%elem_of_nil.
Qed.

(** ** Failures *)

(** X12: the first iteration that raises ends the run: [main] raises the
    same exception in the world that iteration left, the combinations after
    it are not visited, and the status of the process is 130 for
    [KeyboardInterrupt] and 1 for an exception of class [Exception]. *)
Theorem first_failure_ends_run (l1 l2 : list combination) (c : combination)
    (w0 w w' : world) (e : exn) :
  combinations = l1 ++ c :: l2 ->
  "CC Icons" ∈ font_families ->
  for_each l1 step (printed first_line w0) = (Ok tt, w) ->
  step c w = (Raise e, w') ->
  run_main w0 = (Raise e, w')
  /\ (e = KeyboardInterrupt -> (run_script w0).1 = 130%Z)
  /\ (is_Exception e = true -> (run_script w0).1 = 1%Z).
Proof.
  intros Hcomb Hfont Hl1 Hstep.
  assert (run_main w0 = (Raise e, w')) as Hmain.
  { rewrite main_combinations, Hcomb by done. by eapply for_each_raise. }
  split; [done|]. unfold script. rewrite Hmain.
  split; [by intros ->|]. by destruct e.
Qed.

(** ** Output and the tree *)

(** X13: [main] writes nothing to the error stream, and to the output
    stream only the line that names the base directory, once, and only if
    the font is installed. *)
Theorem main_output (w : world) :
  stderr (run_main w).2 = stderr w
  /\ stdout (run_main w).2
     = stdout w ++ (if bool_decide ("CC Icons" ∈ font_families)
                    then [first_line] else []).
Proof.
  destruct (decide ("CC Icons" ∈ font_families)) as [Hin|Hnin].
  - rewrite main_combinations, bool_decide_eq_true_2 by done.
    pose proof (for_each_preserves
                  (fun w1 w2 => stderr w2 = stderr w1 /\ stdout w2 = stdout w1)
                  combinations step) as Hloop.
    destruct (Hloop ltac:(done) ltac:(by intros ??? [-> ->] [-> ->])
                (fun c w1 _ =>
                   let '(ex_intro _ _ (conj _ (conj Ho (conj He _))))
                     := step_cases c w1 in conj He Ho)
                (printed first_line w)) as [-> ->].
    done.
  - rewrite main_font_missing, bool_decide_eq_false_2 by done.
    cbn. by rewrite app_nil_r.
Qed.

(** X14: whatever exists after a run existed before it or is a path of the
    icon tree: the output file of an enumerated combination whose colours
    differ, its output directory or a directory above it. *)
Theorem run_confined (w : world) (p : string) :
  p ∈ fs (run_main w).2 ->
  p ∈ fs w \/ icon_tree_path script_dir abspath realpath p.
Proof.
  destruct (decide ("CC Icons" ∈ font_families)) as [Hin|Hnin];
    [|rewrite main_font_missing by done; by left].
  rewrite main_combinations by done.
  intros Hp.
  apply (for_each_preserves
           (fun w1 w2 => forall q, q ∈ fs w2 ->
              q ∈ fs w1 \/ icon_tree_path script_dir abspath realpath q)
           combinations step) with (w := printed first_line w); [..|exact Hp].
  - by left.
  - intros w1 w2 w3 H12 H23 q [Hq|Hq]%H23; [by apply H12 | by right].
  - clear. intros c w Hc q Hq.
    destruct (step_cases c w) as (evs & _ & _ & _ & _ & Hsub & Hcases).
    destruct Hcases as [[_ E]|[(_ & _ & _ & e & _ & E)|Hvis]].
    + rewrite E in Hq. by left.
    + rewrite E in Hq. by left.
    + assert (visible c = true) as Hv
        by (destruct Hvis as [(_ & Hv & _)|(ctx & _ & Hv & _)]; done).
      apply Hsub in Hq. rewrite !elem_of_union, elem_of_list_to_set in Hq.
      destruct Hq as [[Hq|Hq]|Hq%elem_of_singleton]; [by left|right..];
        exists c; auto.
Qed.

End DriverMore.

Lemma first_failure_ends_run_witness :
  let w := printed basedir_line empty_world in
  let w' := logged (EvMakedirs (dir_of srv same_path same_path first_combination))
                   (logged (genicon_event first_combination) w) in
  main tall_glyphs installed_fonts srv same_path same_path interrupted
       no_write_error empty_world
  = (Raise KeyboardInterrupt, w')
  /\ (script tall_glyphs installed_fonts srv same_path same_path interrupted
             no_write_error empty_world).1 = 130%Z.
Proof.
  intros w w'.
  assert (step tall_glyphs srv same_path same_path interrupted no_write_error
               first_combination w
          = (Raise KeyboardInterrupt, w')) as Hstep.
  { rewrite step_rendering; [|done|apply not_elem_of_empty].
    destruct (render_of tall_glyphs first_combination) as [ctx|e] eqn:Hr;
      [done | by vm_compute in Hr]. }
  destruct (first_failure_ends_run tall_glyphs installed_fonts srv same_path
              same_path interrupted no_write_error
              [] (tail combinations) first_combination empty_world w w'
              KeyboardInterrupt combinations_first installed_fonts_has_icons
              eq_refl Hstep) as (Hmain & Hint & _).
  split; [exact Hmain | by apply Hint].
Defined.

Lemma run_confined_witness :
  let p := file_of srv same_path same_path first_combination in
  p ∈ fs (main tall_glyphs installed_fonts srv same_path same_path
               no_makedirs_error no_write_error full_world).2
  /\ (p ∈ fs full_world \/ icon_tree_path srv same_path same_path p).
Proof.
  intros p.
  assert (p ∈ fs (main tall_glyphs installed_fonts srv same_path same_path
                       no_makedirs_error no_write_error full_world).2) as Hp.
  { apply (main_extends tall_glyphs installed_fonts srv same_path same_path
             no_makedirs_error no_write_error full_world).
    apply full_tree_complete; [|done].
    rewrite combinations_first. apply list_elem_of_here. }
  split; [exact Hp|].
  exact (run_confined tall_glyphs installed_fonts srv same_path same_path
                      no_makedirs_error no_write_error full_world p Hp).
Defined.
